(** * cpp_log_parser_cli: a shallow embedding of [src/main.cpp]

    The program reads a log file line by line and reports the number of
    lines, the number of lines per severity level and the most frequent
    messages.  Every function of [main.cpp] is embedded below under its own
    name; the standard-library calls it makes ([std::isspace],
    [std::toupper], [std::string::find], [operator>>], [std::getline],
    [std::stoi], [std::sort]) are embedded by their documented behaviour in
    the "C" locale, which is the one in force since the program never calls
    [setlocale].

    Data:
    - [std::string] is [string] (a sequence of 8-bit characters);
    - [size_t] indices into a string are [nat]: they never exceed the size
      of the string they index;
    - [int] and [long long] are [Z] with the wrap-around to 32 and 64 bits
      written out ([to_int], [to_llong]);
    - [std::unordered_map<std::string, long long>] is [gmap string Z]. *)

From Stdlib Require Import ZArith Ascii String List Lia Permutation Sorted.
From stdpp Require Import gmap strings list fin_maps pretty.
From Equations Require Import Equations.
From Equations.Prop Require Import Logic.

Local Open Scope Z_scope.

(** ** <cctype> in the "C" locale *)

Module CType.

(** [std::isspace]: space, \t, \n, \v, \f, \r. *)
Definition isspace (c : ascii) : bool :=
  match c with
  | " " | "009" | "010" | "011" | "012" | "013" => true
  | _ => false
  end%char.

(** [std::toupper]: the 26 lower-case letters move to upper case, every
    other character is left alone. *)
Definition toupper (c : ascii) : ascii :=
  if (Ascii.leb "a" c && Ascii.leb c "z")%char
  then ascii_of_nat (nat_of_ascii c - 32)
  else c.

(** [std::isdigit]. *)
Definition isdigit (c : ascii) : bool :=
  (Ascii.leb "0" c && Ascii.leb c "9")%char.

End CType.

(** ** Machine integers *)

Definition wrap (bits : Z) (x : Z) : Z :=
  (x + 2 ^ (bits - 1)) mod 2 ^ bits - 2 ^ (bits - 1).

(** [int]: 32 bits, two's complement. *)
Definition to_int (x : Z) : Z := wrap 32 x.
(** [long long]: 64 bits, two's complement. *)
Definition to_llong (x : Z) : Z := wrap 64 x.

Definition INT_MIN : Z := - 2 ^ 31.
Definition INT_MAX : Z := 2 ^ 31 - 1.
Definition LLONG_MAX : Z := 2 ^ 63 - 1.

(** ** std::string *)

Module StdString.

(** [s[i]]; the character one past the end reads as NUL. *)
Definition at_ (s : string) (i : nat) : ascii :=
  default "000"%char (String.get i s).

(** [s.substr(pos)] for [pos <= s.size()]: the rest of [s] from [pos] on. *)
Fixpoint substr_from (s : string) (pos : nat) : string :=
  match pos, s with
  | O, _ => s
  | S p, String _ s' => substr_from s' p
  | S _, EmptyString => EmptyString
  end.

(** [s.substr(pos, count)] for [pos <= s.size()]. *)
Definition substr (s : string) (pos count : nat) : string :=
  String.substring pos count s.

(** [s.find(marker)]: the least position at which [marker] occurs in [s],
    [None] standing for [std::string::npos]. *)
Fixpoint find (s marker : string) : option nat :=
  if String.prefix marker s then Some O
  else match s with
       | EmptyString => None
       | String _ s' => S <$> find s' marker
       end.

End StdString.

(** ** Input streams

    A stream ([std::istringstream], [std::ifstream]) is the string of the
    characters not read yet. *)

Module IStream.

(** The whitespace skipped before a formatted extraction. *)
Fixpoint skipws (s : string) : string :=
  match s with
  | String c s' => if CType.isspace c then skipws s' else s
  | EmptyString => EmptyString
  end.

(** The characters up to the next whitespace or the end, and what follows
    them. *)
Fixpoint read_word (s : string) : string * string :=
  match s with
  | String c s' =>
      if CType.isspace c then (EmptyString, s)
      else let (w, r) := read_word s' in (String c w, r)
  | EmptyString => (EmptyString, EmptyString)
  end.

(** [iss >> token]: leading whitespace is skipped, then characters are taken
    up to the next whitespace.  The extraction fails ([None]) when the end of
    the stream is reached before any character of a token. *)
Definition extract (iss : string) : option (string * string) :=
  match skipws iss with
  | EmptyString => None
  | String c s' => Some (read_word (String c s'))
  end.

(** The characters up to the first newline, and what follows that newline. *)
Fixpoint read_line (s : string) : string * string :=
  match s with
  | String c s' =>
      if Ascii.eqb c "010" then (EmptyString, s')
      else let (l, r) := read_line s' in (String c l, r)
  | EmptyString => (EmptyString, EmptyString)
  end.

(** [std::getline(infile, line)]: fails ([None]) at the end of the stream;
    otherwise yields the characters up to the next newline, which is
    consumed, or up to the end of the stream. *)
Definition getline (infile : string) : option (string * string) :=
  match infile with
  | EmptyString => None
  | String _ _ => Some (read_line infile)
  end.

End IStream.

(** ** trim (main.cpp, lines 30-40) *)

(** First loop: [while (start < s.size() && isspace(s[start])) start++]. *)
Equations? trim_start (s : string) (start : nat) : nat
  by wf (String.length s - start)%nat lt :=
  trim_start s start with inspect (start <? String.length s)%nat := {
    | exist _ true Hlt =>
        if CType.isspace (StdString.at_ s start)
        then trim_start s (S start)
        else start
    | exist _ false _ => start }.
Proof. apply Nat.ltb_lt in Hlt. lia. Qed.

(** Second loop: [while (end > start && isspace(s[end - 1])) end--]. *)
Fixpoint trim_end (s : string) (start end_ : nat) : nat :=
  match end_ with
  | O => O
  | S e =>
      if (start <? end_)%nat && CType.isspace (StdString.at_ s e)
      then trim_end s start e
      else end_
  end.

Definition trim (s : string) : string :=
  let start := trim_start s 0 in
  let end_ := trim_end s start (String.length s) in
  StdString.substr s start (end_ - start).

(** ** extract_level (main.cpp, lines 44-67) *)

Definition levels : list string :=
  ["TRACE"; "DEBUG"; "INFO"; "WARN"; "WARNING"; "ERROR"; "FATAL"].

(** [for (char& c : upper) c = toupper(c)]. *)
Fixpoint to_upper (s : string) : string :=
  match s with
  | EmptyString => EmptyString
  | String c s' => String (CType.toupper c) (to_upper s')
  end.

(** The inner loop [for (const auto& lvl : levels)]: [Some r] when the loop
    body returns [r], [None] when the loop runs to its end. *)
Fixpoint match_levels (upper : string) (lvls : list string) : option string :=
  match lvls with
  | [] => None
  | lvl :: lvls' =>
      if String.eqb upper lvl then
        if String.eqb upper "WARNING" then Some "WARN" else Some upper
      else match_levels upper lvls'
  end.

(** Termination of the loop below: an extraction that succeeds consumes at
    least one character of the stream. *)
Lemma read_word_length s :
  (String.length (fst (IStream.read_word s))
   + String.length (snd (IStream.read_word s)) = String.length s)%nat.
Proof.
  induction s as [|c s IH]; simpl; [done|].
  destruct (CType.isspace c); simpl; [done|].
  destruct (IStream.read_word s); simpl in *. lia.
Qed.

Lemma skipws_length s :
  (String.length (IStream.skipws s) <= String.length s)%nat.
Proof.
  induction s as [|c s IH]; simpl; [done|].
  destruct (CType.isspace c); simpl; lia.
Qed.

Lemma skipws_head c s' s :
  IStream.skipws s = String c s' -> CType.isspace c = false.
Proof.
  induction s as [|d s IH]; simpl; [done|].
  destruct (CType.isspace d) eqn:E; [done|]. by intros [= -> _].
Qed.

Lemma extract_shrinks iss token rest :
  IStream.extract iss = Some (token, rest) ->
  (String.length rest < String.length iss)%nat.
Proof.
  unfold IStream.extract. destruct (IStream.skipws iss) as [|c s'] eqn:E; [done|].
  intros H. pose proof (skipws_length iss) as Hl. rewrite E in Hl.
  pose proof (read_word_length s') as Hw.
  apply skipws_head in E as Hc. simpl in H. rewrite Hc in H.
  destruct (IStream.read_word s'); simplify_eq/=. lia.
Qed.

(** The outer loop [while (iss >> token)], followed by [return "UNKNOWN"]. *)
Equations? extract_level_loop (iss : string) : string
  by wf (String.length iss) lt :=
  extract_level_loop iss with inspect (IStream.extract iss) := {
    | exist _ (Some (token, rest)) Hext =>
        let upper := to_upper token in
        match match_levels upper levels with
        | Some r => r
        | None => extract_level_loop rest
        end
    | exist _ None _ => "UNKNOWN" }.
Proof. by eapply extract_shrinks. Qed.

Definition extract_level (line : string) : string :=
  extract_level_loop line.

(** ** extract_message (main.cpp, lines 71-78) *)

Definition extract_message (line : string) : string :=
  let marker := " - " in
  match StdString.find line marker with
  | Some pos => trim (StdString.substr_from line (pos + String.length marker))
  | None => trim line
  end.

(** ** std::stoi

    [std::stoi(str)] runs [strtol] in base 10: whitespace is skipped, an
    optional sign is read, then the longest run of decimal digits; what
    follows the digits is ignored.  It throws [std::invalid_argument] when
    there is no digit to convert and [std::out_of_range] when the value does
    not fit an [int]; both are [None] here, as [parse_args] catches
    everything. *)

Module StdLib.

Definition digit_value (c : ascii) : Z := Z.of_nat (nat_of_ascii c) - 48.

(** The value of the leading run of digits of [s], continuing from [acc]. *)
Fixpoint digits_value (acc : Z) (s : string) : Z :=
  match s with
  | String c s' =>
      if CType.isdigit c then digits_value (10 * acc + digit_value c) s'
      else acc
  | EmptyString => acc
  end.

Definition read_sign (s : string) : bool * string :=
  match s with
  | String "-" s' => (true, s')
  | String "+" s' => (false, s')
  | _ => (false, s)
  end.

Definition stoi (str : string) : option Z :=
  let (neg, s) := read_sign (IStream.skipws str) in
  match s with
  | String c _ =>
      if CType.isdigit c then
        let v := digits_value 0 s in
        let v := if neg then - v else v in
        if (INT_MIN <=? v) && (v <=? INT_MAX) then Some v else None
      else None
  | EmptyString => None
  end.

End StdLib.

(** ** parse_args (main.cpp, lines 88-114)

    [argv] is the list of the [argc] arguments.  The function returns
    [false] or returns [true] with [filepath] and [top_n] set: [None] or
    [Some (filepath, top_n)]. *)

Definition parse_args (argv : list string) : option (string * Z) :=
  let argc := Z.of_nat (length argv) in
  let top_n := 5 in
  if argc <? 2 then None
  else
    let filepath := default EmptyString (argv !! 1%nat) in
    if argc =? 4 then
      let flag := default EmptyString (argv !! 2%nat) in
      if negb (String.eqb flag "--top") then None
      else
        match StdLib.stoi (default EmptyString (argv !! 3%nat)) with
        | Some n =>
            let top_n := n in
            let top_n := if top_n <? 1 then 1 else top_n in
            Some (filepath, top_n)
        | None => None
        end
    else if negb (argc =? 2) then None
    else Some (filepath, top_n).

(** ** Stats and process_file (main.cpp, lines 24-28 and 116-136) *)

Record Stats := mkStats {
  total_lines : Z;
  level_counts : gmap string Z;
  message_counts : gmap string Z
}.

Definition empty_stats : Stats := mkStats 0 ∅ ∅.

(** [m[key]++] on an [unordered_map<string, long long>]: a missing key is
    first inserted with the value 0. *)
Definition incr (key : string) (m : gmap string Z) : gmap string Z :=
  <[key := to_llong (default 0 (m !! key) + 1)]> m.

(** The body of the [while] loop of [process_file]. *)
Definition process_line (stats : Stats) (line : string) : Stats :=
  let total := to_llong (total_lines stats + 1) in
  let level := extract_level line in
  let lc := incr level (level_counts stats) in
  let msg := extract_message line in
  let mc :=
    if negb (String.eqb msg EmptyString) then incr msg (message_counts stats)
    else message_counts stats in
  mkStats total lc mc.

(** Termination of the loop below: a [std::getline] that succeeds consumes
    at least one character of the stream. *)
Lemma read_line_length s :
  (String.length (snd (IStream.read_line s)) <= String.length s)%nat.
Proof.
  induction s as [|c s IH]; simpl; [done|].
  destruct (Ascii.eqb c "010"); simpl; [lia|].
  destruct (IStream.read_line s); simpl in *. lia.
Qed.

Lemma getline_shrinks infile line rest :
  IStream.getline infile = Some (line, rest) ->
  (String.length rest < String.length infile)%nat.
Proof.
  destruct infile as [|c s]; [done|]. cbn [IStream.getline IStream.read_line].
  pose proof (read_line_length s) as Hl.
  destruct (Ascii.eqb c "010"); [intros [= _ <-]; simpl; lia|].
  destruct (IStream.read_line s); simpl in *. intros [= _ <-]. lia.
Qed.

(** [while (std::getline(infile, line)) { ... }]. *)
Equations? process_loop (infile : string) (stats : Stats) : Stats
  by wf (String.length infile) lt :=
  process_loop infile stats with inspect (IStream.getline infile) := {
    | exist _ (Some (line, rest)) Hget =>
        process_loop rest (process_line stats line)
    | exist _ None _ => stats }.
Proof. by eapply getline_shrinks. Qed.

(** The file system maps a path to the content of the file when the file
    can be opened for reading.  [process_file] returns [false] ([None]) or
    returns [true] with [stats] updated. *)
Definition process_file (fs : string -> option string)
    (filepath : string) (stats : Stats) : option Stats :=
  match fs filepath with
  | None => None
  | Some infile => Some (process_loop infile stats)
  end.

(** ** print_results (main.cpp, lines 138-183)

    The output is the string written to standard output.  [operator<<] on an
    [int] or a [long long] writes the decimal numeral ([pretty]). *)

Definition nl : string := String "010" EmptyString.

Definition common : list string :=
  ["INFO"; "WARN"; "ERROR"; "DEBUG"; "TRACE"; "FATAL"; "UNKNOWN"].

Definition level_line (lvl : string) (count : Z) : string :=
  "  " +:+ lvl +:+ ": " +:+ pretty count +:+ nl.

(** [for (const auto& lvl : common)]: the levels of [common] present in the
    map, in the order of [common]. *)
Fixpoint print_common_levels (lvls : list string) (lc : gmap string Z) : string :=
  match lvls with
  | [] => EmptyString
  | lvl :: lvls' =>
      match lc !! lvl with
      | Some count => level_line lvl count
      | None => EmptyString
      end +:+ print_common_levels lvls' lc
  end.

(** [std::find(common.begin(), common.end(), key) == common.end()]. *)
Definition not_in_common (key : string) : bool :=
  negb (existsb (String.eqb key) common).

(** [for (const auto& kv : stats.level_counts)] over the entries of the map
    in the order the map enumerates them. *)
Fixpoint print_extra_levels (kvs : list (string * Z)) : string :=
  match kvs with
  | [] => EmptyString
  | kv :: kvs' =>
      (if not_in_common kv.1 then level_line kv.1 kv.2 else EmptyString)
      +:+ print_extra_levels kvs'
  end.

(** The comparator given to [std::sort]. *)
Definition by_count_then_message (a b : string * Z) : bool :=
  if negb (a.2 =? b.2) then b.2 <? a.2
  else String.ltb a.1 b.1.

(** [std::sort(first, last, comp)] rearranges the range into an order in
    which no element is [comp]-before an element that precedes it.  It is
    embedded as an insertion sort; [std_sort_unique] below shows that for
    the entries of a map every such rearrangement is this one. *)
Fixpoint sort_insert {A} (comp : A -> A -> bool) (x : A) (l : list A) : list A :=
  match l with
  | [] => [x]
  | y :: l' => if comp x y then x :: l else y :: sort_insert comp x l'
  end.

Definition std_sort {A} (comp : A -> A -> bool) (l : list A) : list A :=
  foldr (sort_insert comp) [] l.

Definition top_line (i : Z) (p : string * Z) : string :=
  "  " +:+ pretty (i + 1) +:+ ") " +:+ p.1 +:+ " (" +:+ pretty p.2 +:+ ")" +:+ nl.

(** [for (int i = 0; i < limit; i++)]; since [i < limit <= INT_MAX], the
    increment does not overflow. *)
Equations? print_top_loop (pairs : list (string * Z)) (limit i : Z) : string
  by wf (Z.to_nat (limit - i)) lt :=
  print_top_loop pairs limit i with inspect (i <? limit) := {
    | exist _ true Hlt =>
        top_line i (default (EmptyString, 0) (pairs !! Z.to_nat i))
        +:+ print_top_loop pairs limit (i + 1)
    | exist _ false _ => EmptyString }.
Proof. apply Z.ltb_lt in Hlt. lia. Qed.

(** The pairs after [std::sort]. *)
Definition sorted_pairs (stats : Stats) : list (string * Z) :=
  std_sort by_count_then_message (map_to_list (message_counts stats)).

(** [int limit = std::min(top_n, static_cast<int>(pairs.size()))]. *)
Definition top_limit (stats : Stats) (top_n : Z) : Z :=
  Z.min top_n (to_int (Z.of_nat (length (sorted_pairs stats)))).

(** What is written after the "Top messages:" heading. *)
Definition print_top_messages (stats : Stats) (top_n : Z) : string :=
  let pairs := sorted_pairs stats in
  let limit := top_limit stats top_n in
  print_top_loop pairs limit 0
  +:+ (if limit =? 0 then "  (No messages found)" +:+ nl else EmptyString).

(** What is written after the "Log levels:" heading. *)
Definition print_levels (stats : Stats) : string :=
  print_common_levels common (level_counts stats)
  +:+ print_extra_levels (map_to_list (level_counts stats)).

Definition print_results (stats : Stats) (top_n : Z) : string :=
  nl +:+ "Summary" +:+ nl
  +:+ "-------" +:+ nl
  +:+ "Total lines: " +:+ pretty (total_lines stats) +:+ nl +:+ nl
  +:+ "Log levels:" +:+ nl
  +:+ print_levels stats
  +:+ nl +:+ "Top messages:" +:+ nl
  +:+ print_top_messages stats top_n
  +:+ nl.

(** ** print_usage and main (main.cpp, lines 80-86 and 185-202) *)

Definition print_usage (exe : string) : string :=
  "Usage:" +:+ nl
  +:+ "  " +:+ exe +:+ " <log_file_path> [--top N]" +:+ nl +:+ nl
  +:+ "Examples:" +:+ nl
  +:+ "  " +:+ exe +:+ " sample_logs/sample.log" +:+ nl
  +:+ "  " +:+ exe +:+ " sample_logs/sample.log --top 10" +:+ nl.

(** What a run of the program leaves behind. *)
Record Outcome := mkOutcome {
  exit_code : Z;
  out : string;   (* standard output *)
  err : string    (* standard error *)
}.

Definition main (fs : string -> option string) (argv : list string) : Outcome :=
  match parse_args argv with
  | None =>
      mkOutcome 1 (print_usage (default "log_parser" (argv !! 0%nat))) EmptyString
  | Some (filepath, top_n) =>
      match process_file fs filepath empty_stats with
      | None =>
          mkOutcome 2 EmptyString
            ("Error: Could not open file: " +:+ filepath +:+ nl)
      | Some stats => mkOutcome 0 (print_results stats top_n) EmptyString
      end
  end.

(** ** The lines of a file

    [read_lines infile] lists the lines that the successive calls of
    [std::getline] in [process_file] yield. *)

Equations? read_lines (infile : string) : list string
  by wf (String.length infile) lt :=
  read_lines infile with inspect (IStream.getline infile) := {
    | exist _ (Some (line, rest)) Hget => line :: read_lines rest
    | exist _ None _ => [] }.
Proof. by eapply getline_shrinks. Qed.

(** A sample file and a file system holding it. *)
Definition sample_log : string :=
  "2026-01-15 10:03:21 INFO  AuthService - User login ok" +:+ nl +:+
  "2026-01-15 10:03:22 WARN  Billing     - Slow query detected" +:+ nl +:+
  "2026-01-15 10:03:23 ERROR Billing     - ORA-12541: TNS no listener" +:+ nl +:+
  "2026-01-15 10:03:24 INFO  AuthService - User login ok" +:+ nl +:+
  nl +:+
  "plain text line".

Definition sample_fs (path : string) : option string :=
  if String.eqb path "sample.log" then Some sample_log
  else if String.eqb path "empty.log" then Some EmptyString
  else None.

(** ** Vocabulary of the specification *)

(** The sum of all the values of a map of counters. *)
Definition sum_counts (m : gmap string Z) : Z :=
  foldr Z.add 0 (map_to_list m).*2.

(** The number of lines that [f] sends to [key]. *)
Definition occurrences (f : string -> string) (key : string)
    (lines : list string) : Z :=
  Z.of_nat (length (filter (fun line => f line = key) lines)).

(** The number of lines whose extracted message is not empty. *)
Definition lines_with_message (lines : list string) : Z :=
  Z.of_nat (length (filter (fun line => extract_message line <> EmptyString) lines)).

(** The entry of a counter map for a key seen [n] times: no entry at all
    when [n = 0]. *)
Definition counter_entry (n : Z) : option Z :=
  if n =? 0 then None else Some n.

(** Two strings are equal case-insensitively when they are equal once the
    letters of both are moved to upper case. *)
Definition ci_equal (a b : string) : bool :=
  String.eqb (to_upper a) (to_upper b).

(** A token is a level token when it equals one of the candidates
    case-insensitively. *)
Definition is_level_token (token : string) : bool :=
  existsb (ci_equal token) levels.

(** The seven candidates of the specification, in its order. *)
Definition level_candidates : list string :=
  ["TRACE"; "DEBUG"; "INFO"; "WARN"; "WARNING"; "ERROR"; "FATAL"].

(** The lower-case letters and, at the same places, their upper-case
    forms. *)
Definition lower_letters : string := "abcdefghijklmnopqrstuvwxyz".
Definition upper_letters : string := "ABCDEFGHIJKLMNOPQRSTUVWXYZ".

(** [paired_letter c from to]: the character of [to] at the place where [c]
    stands in [from]; [c] itself when it is not in [from]. *)
Fixpoint paired_letter (c : ascii) (from to : string) : ascii :=
  match from, to with
  | String f from', String t to' =>
      if Ascii.eqb c f then t else paired_letter c from' to'
  | _, _ => c
  end.

(** The upper-case form of a character: each of the 26 lower-case letters
    has one, every other character is its own. *)
Definition upper_letter (c : ascii) : ascii :=
  paired_letter c lower_letters upper_letters.

(** The upper-cased form of a string. *)
Fixpoint upper_case (s : string) : string :=
  match s with
  | EmptyString => EmptyString
  | String c s' => String (upper_letter c) (upper_case s')
  end.

(** Two strings are equal case-insensitively when their upper-cased forms
    are the same. *)
Definition equal_ignoring_case (a b : string) : bool :=
  String.eqb (upper_case a) (upper_case b).

(** A token matches when it equals one of the seven candidates
    case-insensitively. *)
Definition is_candidate (token : string) : bool :=
  existsb (equal_ignoring_case token) level_candidates.

(** The level of a line in the words of the specification: the whitespace-
    delimited tokens of the line ([String.words]) are scanned from the left;
    the first token that matches a candidate is returned in its upper-cased
    form, WARNING as WARN; UNKNOWN when no token matches.  Nothing here is
    taken from the code: the candidates, the upper-casing and the splitting
    are those of the specification. *)
Definition extract_level_spec (line : string) : string :=
  match List.find is_candidate (String.words line) with
  | Some token =>
      if String.eqb (upper_case token) "WARNING" then "WARN"
      else upper_case token
  | None => "UNKNOWN"
  end.

(** The whitespace characters: space, tab, newline, carriage return, form
    feed, vertical tab. *)
Definition whitespace_chars : list ascii :=
  [" "; "009"; "010"; "013"; "012"; "011"]%char.

(** A string made of whitespace only. *)
Fixpoint all_space (s : string) : bool :=
  match s with
  | EmptyString => true
  | String c s' => CType.isspace c && all_space s'
  end.

(** [stripped_of s t]: [t] is [s] with its leading and trailing whitespace
    stripped, that is, [s] is [t] between two runs of whitespace and [t]
    neither starts nor ends with whitespace. *)
Definition stripped_of (s t : string) : Prop :=
  exists l r,
    s = l +:+ t +:+ r
    /\ all_space l = true
    /\ all_space r = true
    /\ (t = EmptyString
        \/ (CType.isspace (StdString.at_ t 0) = false
            /\ CType.isspace (StdString.at_ t (String.length t - 1)) = false)).

(** [occurs marker s]: [marker] occurs somewhere in [s]. *)
Fixpoint occurs (marker s : string) : bool :=
  String.prefix marker s
  || match s with
     | EmptyString => false
     | String _ s' => occurs marker s'
     end.

(** The usage text, with the name of the executable in its three places. *)
Definition usage_text (exe : string) : string :=
  "Usage:" +:+ nl
  +:+ "  " +:+ exe +:+ " <log_file_path> [--top N]" +:+ nl +:+ nl
  +:+ "Examples:" +:+ nl
  +:+ "  " +:+ exe +:+ " sample_logs/sample.log" +:+ nl
  +:+ "  " +:+ exe +:+ " sample_logs/sample.log --top 10" +:+ nl.


Definition is_decimal_digit (c : ascii) : bool :=
  match c with
  | "0" | "1" | "2" | "3" | "4" | "5" | "6" | "7" | "8" | "9" => true
  | _ => false
  end%char.

Fixpoint all_decimal_digits (s : string) : bool :=
  match s with
  | EmptyString => true
  | String c s' => is_decimal_digit c && all_decimal_digits s'
  end.

(** A string that is an integer: an optional sign, then one or more decimal
    digits, and nothing else. *)
Definition integer_numeral (s : string) : bool :=
  let digits :=
    match s with
    | String "-" s' => s'
    | String "+" s' => s'
    | _ => s
    end in
  negb (String.eqb digits EmptyString) && all_decimal_digits digits.

Definition starts_with_digit (s : string) : bool :=
  match s with
  | String c _ => is_decimal_digit c
  | EmptyString => false
  end.

(** A string that starts with an integer: after leading whitespace and an
    optional sign comes a decimal digit. *)
Fixpoint skip_whitespace (s : string) : string :=
  match s with
  | String c s' =>
      if bool_decide (c ∈ whitespace_chars) then skip_whitespace s' else s
  | EmptyString => EmptyString
  end.

Definition has_leading_integer (s : string) : bool :=
  match skip_whitespace s with
  | String "-" s' => starts_with_digit s'
  | String "+" s' => starts_with_digit s'
  | s' => starts_with_digit s'
  end.



(** [counted lines stats]: [stats] holds exactly the counts of [lines]. *)
Record counted (lines : list string) (stats : Stats) : Prop := mkCounted {
  counted_total : total_lines stats = Z.of_nat (length lines);
  counted_levels : forall key,
    level_counts stats !! key
    = counter_entry (occurrences extract_level key lines);
  counted_messages : forall key,
    message_counts stats !! key
    = if decide (key = EmptyString) then None
      else counter_entry (occurrences extract_message key lines);
  counted_level_sum :
    sum_counts (level_counts stats) = Z.of_nat (length lines);
  counted_message_sum :
    sum_counts (message_counts stats) = lines_with_message lines
}.

(** The seven values of the conceptual [Level] enumeration. *)
Definition level_names : list string :=
  ["TRACE"; "DEBUG"; "INFO"; "WARN"; "ERROR"; "FATAL"; "UNKNOWN"].

(** A string that holds a newline character. *)
Fixpoint has_newline (s : string) : bool :=
  match s with
  | EmptyString => false
  | String c s' => Ascii.eqb c "010" || has_newline s'
  end.

(** The last character of a string is a newline. *)
Fixpoint ends_with_newline (s : string) : bool :=
  match s with
  | EmptyString => false
  | String c EmptyString => Ascii.eqb c "010"
  | String _ s' => ends_with_newline s'
  end.

(** The file made of the given lines, each one followed by a newline. *)
Fixpoint join_lines (lines : list string) : string :=
  match lines with
  | [] => EmptyString
  | line :: lines' => line +:+ nl +:+ join_lines lines'
  end.



(** * Sanity checks on concrete inputs *)

Example trim_ex1 : trim "  User login ok  " = "User login ok".
Proof. reflexivity. Qed.

Example trim_ex2 : trim "   " = "".
Proof. reflexivity. Qed.

Example extract_level_ex1 :
  extract_level "2026-01-15 10:03:21 INFO AuthService - User login ok" = "INFO".
Proof. reflexivity. Qed.

Example extract_level_ex2 :
  extract_level "... WARNING Billing - Slow query" = "WARN".
Proof. reflexivity. Qed.

Example extract_level_ex3 : extract_level "plain text line" = "UNKNOWN".
Proof. reflexivity. Qed.

Example extract_message_ex1 :
  extract_message "2026-01-15 10:03:21 INFO AuthService - User login ok"
  = "User login ok".
Proof. reflexivity. Qed.

Example extract_message_ex2 : extract_message "plain text line" = "plain text line".
Proof. reflexivity. Qed.

Example words_ex :
  String.words "  2026-01-15   INFO" = ["2026-01-15"; "INFO"]
  /\ String.words "   " = [].
Proof. split; reflexivity. Qed.

Example read_lines_ex :
  read_lines ("a" +:+ nl +:+ nl +:+ "b") = ["a"; ""; "b"]
  /\ read_lines ("a" +:+ nl) = ["a"]
  /\ read_lines nl = [""]
  /\ read_lines "" = [].
Proof. repeat split; reflexivity. Qed.

(** [std::stoi] ignores what follows the digits, and rejects a value that
    does not fit an [int]. *)
Example stoi_ex :
  StdLib.stoi "10" = Some 10
  /\ StdLib.stoi "  -3" = Some (-3)
  /\ StdLib.stoi "12abc" = Some 12
  /\ StdLib.stoi "abc" = None
  /\ StdLib.stoi "" = None
  /\ StdLib.stoi "2147483647" = Some 2147483647
  /\ StdLib.stoi "2147483648" = None.
Proof. repeat split; reflexivity. Qed.

Example main_ex1 :
  main sample_fs ["log_parser"; "sample.log"; "--top"; "2"] =
  mkOutcome 0
    (nl +:+ "Summary" +:+ nl +:+ "-------" +:+ nl
     +:+ "Total lines: 6" +:+ nl +:+ nl
     +:+ "Log levels:" +:+ nl
     +:+ "  INFO: 2" +:+ nl
     +:+ "  WARN: 1" +:+ nl
     +:+ "  ERROR: 1" +:+ nl
     +:+ "  UNKNOWN: 2" +:+ nl
     +:+ nl +:+ "Top messages:" +:+ nl
     +:+ "  1) User login ok (2)" +:+ nl
     +:+ "  2) ORA-12541: TNS no listener (1)" +:+ nl
     +:+ nl)
    "".
Proof. vm_compute. reflexivity. Qed.

(** * Argument parsing and exit codes *)

Section Arguments.

Variable fs : string -> option string.

(** The two shapes of argument list that [parse_args] accepts. *)
Lemma parse_args_Some argv filepath top_n :
  parse_args argv = Some (filepath, top_n) <->
  (exists exe, argv = [exe; filepath] /\ top_n = 5)
  \/ (exists exe v n, argv = [exe; filepath; "--top"; v]
        /\ StdLib.stoi v = Some n /\ top_n = Z.max 1 n).
Proof.
  unfold parse_args. split.
  - destruct argv as [|exe [|f [|flag [|v [|w argv]]]]]; try done.
    + intros [= <- <-]. left. by exists exe.
    + cbn. destruct (String.eqb_spec flag "--top") as [->|]; simpl; [|done].
      destruct (StdLib.stoi v) as [n|] eqn:Hv; [|done].
      intros [= <- <-]. right. exists exe, v, n. repeat split; [done|].
      destruct (Z.ltb_spec n 1); lia.
    + destruct (Z.ltb_spec (Z.of_nat (length (exe :: f :: flag :: v :: w :: argv))) 2);
        [done|].
      destruct (Z.eqb_spec (Z.of_nat (length (exe :: f :: flag :: v :: w :: argv))) 4)
        as [Hl|_]; [simpl in Hl; lia|].
      destruct (Z.eqb_spec (Z.of_nat (length (exe :: f :: flag :: v :: w :: argv))) 2)
        as [Hl|_]; [simpl in Hl; lia|done].
  - intros [(exe & -> & ->)|(exe & v & n & -> & Hv & ->)]; simpl; [done|].
    rewrite Hv. do 2 f_equal. destruct (Z.ltb_spec n 1); lia.
Qed.

Lemma main_usage argv :
  parse_args argv = None ->
  main fs argv
  = mkOutcome 1 (print_usage (default "log_parser" (argv !! 0%nat))) "".
Proof. unfold main. by intros ->. Qed.

Lemma parse_args_ge_1 argv filepath top_n :
  parse_args argv = Some (filepath, top_n) -> 1 <= top_n.
Proof.
  intros [(exe & -> & ->)|(exe & v & n & -> & Hv & ->)]%parse_args_Some; lia.
Qed.

(** C7. When argument parsing succeeds, [top_n >= 1]; a [--top] value that
    parses as an integer below 1 is clamped to 1 and not rejected; without
    the flag [top_n] is 5. *)
Theorem parse_args_top_n :
  (forall argv filepath top_n,
     parse_args argv = Some (filepath, top_n) -> 1 <= top_n)
  /\ (forall exe filepath v n,
        StdLib.stoi v = Some n -> n < 1 ->
        parse_args [exe; filepath; "--top"; v] = Some (filepath, 1))
  /\ (forall exe filepath v n,
        StdLib.stoi v = Some n -> 1 <= n ->
        parse_args [exe; filepath; "--top"; v] = Some (filepath, n))
  /\ (forall exe filepath, parse_args [exe; filepath] = Some (filepath, 5)).
Proof.
  split; [|split; [|split]].
  - apply parse_args_ge_1.
  - intros exe filepath v n Hv Hn. apply parse_args_Some. right.
    exists exe, v, n. repeat split; [done|lia].
  - intros exe filepath v n Hv Hn. apply parse_args_Some. right.
    exists exe, v, n. repeat split; [done|lia].
  - intros exe filepath. apply parse_args_Some. left. by exists exe.
Qed.

Lemma print_usage_text exe : print_usage exe = usage_text exe.
Proof. done. Qed.



End Arguments.

(** * The loops, one iteration at a time *)

Lemma trim_start_eq s start :
  trim_start s start =
  if (start <? String.length s)%nat && CType.isspace (StdString.at_ s start)
  then trim_start s (S start)
  else start.
Proof.
  rewrite trim_start_equation_1.
  remember (inspect (start <? String.length s)%nat) as i eqn:E; clear E.
  destruct i as [[] H]; cbn -[Nat.ltb]; rewrite H; reflexivity.
Qed.

Lemma extract_level_loop_eq iss :
  extract_level_loop iss =
  match IStream.extract iss with
  | Some (token, rest) =>
      match match_levels (to_upper token) levels with
      | Some r => r
      | None => extract_level_loop rest
      end
  | None => "UNKNOWN"
  end.
Proof.
  rewrite extract_level_loop_equation_1.
  remember (inspect (IStream.extract iss)) as i eqn:E; clear E.
  destruct i as [[[token rest]|] H]; cbn -[levels]; rewrite H; reflexivity.
Qed.

Lemma process_loop_eq infile stats :
  process_loop infile stats =
  match IStream.getline infile with
  | Some (line, rest) => process_loop rest (process_line stats line)
  | None => stats
  end.
Proof.
  rewrite process_loop_equation_1.
  remember (inspect (IStream.getline infile)) as i eqn:E; clear E.
  destruct i as [[[line rest]|] H]; cbn; rewrite H; reflexivity.
Qed.

Lemma read_lines_eq infile :
  read_lines infile =
  match IStream.getline infile with
  | Some (line, rest) => line :: read_lines rest
  | None => []
  end.
Proof.
  rewrite read_lines_equation_1.
  remember (inspect (IStream.getline infile)) as i eqn:E; clear E.
  destruct i as [[[line rest]|] H]; cbn; rewrite H; reflexivity.
Qed.

Lemma print_top_loop_eq pairs limit i :
  print_top_loop pairs limit i =
  if i <? limit
  then top_line i (default (EmptyString, 0) (pairs !! Z.to_nat i))
       +:+ print_top_loop pairs limit (i + 1)
  else EmptyString.
Proof.
  rewrite print_top_loop_equation_1.
  remember (inspect (i <? limit)) as b eqn:E; clear E.
  destruct b as [[] H]; cbn -[Z.ltb top_line]; rewrite H; reflexivity.
Qed.

(** [process_file] folds [process_line] over the lines that [std::getline]
    yields, first line first. *)
Lemma process_loop_fold infile :
  forall stats,
    process_loop infile stats = fold_left process_line (read_lines infile) stats.
Proof.
  remember (String.length infile) as n eqn:Hn. revert infile Hn.
  induction n as [n IH] using lt_wf_ind. intros infile -> stats.
  rewrite process_loop_eq, read_lines_eq.
  destruct (IStream.getline infile) as [[line rest]|] eqn:Hget; [|done].
  simpl. eapply IH; [|done]. by eapply getline_shrinks.
Qed.

(** * Counters *)

Lemma to_llong_small x : - 2 ^ 63 <= x <= LLONG_MAX -> to_llong x = x.
Proof.
  unfold to_llong, wrap, LLONG_MAX. intros Hx.
  change (64 - 1) with 63. rewrite Z.mod_small; lia.
Qed.

Lemma sum_counts_perm (l1 l2 : list Z) :
  l1 ≡ₚ l2 -> foldr Z.add 0 l1 = foldr Z.add 0 l2.
Proof. induction 1; simpl; lia. Qed.

Lemma sum_counts_empty : sum_counts ∅ = 0.
Proof. unfold sum_counts. by rewrite map_to_list_empty. Qed.

Lemma sum_counts_insert_fresh key v (m : gmap string Z) :
  m !! key = None -> sum_counts (<[key := v]> m) = v + sum_counts m.
Proof.
  intros Hm. unfold sum_counts.
  rewrite (sum_counts_perm _ (((key, v) :: map_to_list m).*2)); [done|].
  by rewrite map_to_list_insert.
Qed.

Lemma sum_counts_insert key v (m : gmap string Z) :
  sum_counts (<[key := v]> m) = v + sum_counts m - default 0 (m !! key).
Proof.
  destruct (m !! key) as [w|] eqn:Hm; simpl.
  - rewrite <- insert_delete_eq.
    rewrite sum_counts_insert_fresh by apply lookup_delete_eq.
    rewrite <- (insert_delete_id m key w) at 2 by done.
    rewrite (sum_counts_insert_fresh key w) by apply lookup_delete_eq. lia.
  - rewrite sum_counts_insert_fresh by done. lia.
Qed.

Lemma lookup_incr key key' (m : gmap string Z) :
  incr key m !! key' =
  if decide (key = key') then Some (to_llong (default 0 (m !! key) + 1))
  else m !! key'.
Proof. unfold incr. apply lookup_insert. Qed.

Lemma occurrences_nil f key : occurrences f key [] = 0.
Proof. done. Qed.

Lemma occurrences_snoc f key lines line :
  occurrences f key (lines ++ [line]) =
  occurrences f key lines + (if decide (f line = key) then 1 else 0).
Proof.
  unfold occurrences. rewrite filter_app, length_app, filter_cons, filter_nil.
  destruct (decide (f line = key)); simpl; lia.
Qed.

Lemma occurrences_bounds f key lines :
  0 <= occurrences f key lines <= Z.of_nat (length lines).
Proof.
  unfold occurrences. pose proof (length_filter (fun line => f line = key) lines).
  lia.
Qed.

Lemma lines_with_message_snoc lines line :
  lines_with_message (lines ++ [line]) =
  lines_with_message lines
  + (if decide (extract_message line = EmptyString) then 0 else 1).
Proof.
  unfold lines_with_message.
  rewrite filter_app, length_app, filter_cons, filter_nil.
  destruct (decide (extract_message line = EmptyString));
    destruct (decide (extract_message line <> EmptyString)); simpl; try done; lia.
Qed.

(** One [m[key]++] on a map that holds exactly the entries of the lines read
    so far, when the new count is within the range of [long long]. *)
Lemma incr_counter_entry (m : gmap string Z) key key' n :
  0 <= n < LLONG_MAX ->
  m !! key = counter_entry n ->
  incr key m !! key' =
  if decide (key = key') then Some (n + 1) else m !! key'.
Proof.
  intros Hn Hm. rewrite lookup_incr. case_decide; [|done].
  rewrite Hm. unfold counter_entry.
  destruct (Z.eqb_spec n 0) as [->|]; simpl; rewrite to_llong_small;
    unfold LLONG_MAX in *; (done || lia).
Qed.

Lemma sum_counts_incr (m : gmap string Z) key n :
  0 <= n < LLONG_MAX ->
  m !! key = counter_entry n ->
  sum_counts (incr key m) = sum_counts m + 1.
Proof.
  intros Hn Hm. unfold incr. rewrite sum_counts_insert, Hm. unfold counter_entry.
  destruct (Z.eqb_spec n 0) as [->|]; simpl; rewrite to_llong_small;
    unfold LLONG_MAX in *; lia.
Qed.

(** * The processing pass *)

Lemma counter_entry_pos n : 0 < n -> counter_entry n = Some n.
Proof. unfold counter_entry. destruct (Z.eqb_spec n 0); [lia|done]. Qed.

Lemma counter_entry_Some n v : counter_entry n = Some v -> v = n /\ n <> 0.
Proof.
  unfold counter_entry. destruct (Z.eqb_spec n 0); [done|]. by intros [= ->].
Qed.

Lemma counted_empty : counted [] empty_stats.
Proof.
  split; cbn [empty_stats total_lines level_counts message_counts].
  - done.
  - intros key. apply lookup_empty.
  - intros key. rewrite lookup_empty. by case_decide.
  - apply sum_counts_empty.
  - apply sum_counts_empty.
Qed.

Lemma counted_step lines stats line :
  Z.of_nat (length lines) < LLONG_MAX ->
  counted lines stats ->
  counted (lines ++ [line]) (process_line stats line).
Proof.
  intros Hlen [Htot Hlc Hmc Hlsum Hmsum].
  assert (0 <= occurrences extract_level (extract_level line) lines < LLONG_MAX)
    as Hb1
    by (pose proof (occurrences_bounds extract_level (extract_level line) lines);
        lia).
  assert (0 <= occurrences extract_message (extract_message line) lines < LLONG_MAX)
    as Hb2
    by (pose proof (occurrences_bounds extract_message (extract_message line) lines);
        lia).
  split; cbn [total_lines level_counts message_counts process_line].
  - rewrite Htot, length_app, to_llong_small; unfold LLONG_MAX in *;
      cbn [length]; lia.
  - intros key. rewrite occurrences_snoc.
    rewrite (incr_counter_entry _ _ _ _ Hb1 (Hlc _)).
    pose proof (occurrences_bounds extract_level key lines).
    repeat case_decide; subst; try done.
    + rewrite counter_entry_pos; [done|lia].
    + by rewrite Hlc, Z.add_0_r.
  - intros key. rewrite occurrences_snoc.
    destruct (String.eqb_spec (extract_message line) EmptyString) as [Hmsg|Hmsg];
      simpl.
    + rewrite Hmc. repeat case_decide; try done. congruence.
      by rewrite Z.add_0_r.
    + pose proof (Hmc (extract_message line)) as Hm.
      rewrite decide_False in Hm by done.
      rewrite (incr_counter_entry _ _ _ _ Hb2 Hm).
      pose proof (occurrences_bounds extract_message key lines).
      repeat case_decide; subst; rewrite ?Z.add_0_r, ?Hmc;
        repeat case_decide; try done.
      rewrite counter_entry_pos; [done|lia].
  - rewrite (sum_counts_incr _ _ _ Hb1 (Hlc _)), Hlsum, length_app.
    cbn [length]. lia.
  - rewrite lines_with_message_snoc.
    destruct (String.eqb_spec (extract_message line) EmptyString) as [Hmsg|Hmsg];
      simpl.
    + rewrite decide_True by done. lia.
    + pose proof (Hmc (extract_message line)) as Hm.
      rewrite decide_False in Hm by done.
      rewrite (sum_counts_incr _ _ _ Hb2 Hm), decide_False by done. lia.
Qed.

Lemma counted_fold lines :
  Z.of_nat (length lines) <= LLONG_MAX ->
  counted lines (fold_left process_line lines empty_stats).
Proof.
  induction lines as [|line lines IH] using rev_ind; intros Hlen.
  - apply counted_empty.
  - rewrite fold_left_app. simpl. rewrite length_app in Hlen. simpl in Hlen.
    apply counted_step; [lia|]. apply IH. lia.
Qed.

(** A file has no more lines than characters, so the bound on the number of
    lines below holds for every file smaller than 2^63 bytes. *)
Lemma read_lines_length infile :
  (length (read_lines infile) <= String.length infile)%nat.
Proof.
  remember (String.length infile) as n eqn:Hn. revert infile Hn.
  induction n as [n IH] using lt_wf_ind. intros infile ->.
  rewrite read_lines_eq.
  destruct (IStream.getline infile) as [[line rest]|] eqn:Hget; simpl; [|lia].
  apply getline_shrinks in Hget as Hlt.
  specialize (IH _ Hlt rest eq_refl). lia.
Qed.

(** C4. After the processing pass [total_lines] is the number of lines read,
    blank lines included, and the values of [level_counts] add up to
    [total_lines].  The number of lines is assumed to fit a [long long]; it
    does for every file smaller than 2^63 bytes ([read_lines_length]). *)
Theorem total_lines_and_level_sum
    (fs : string -> option string) (filepath infile : string) :
  fs filepath = Some infile ->
  Z.of_nat (length (read_lines infile)) <= LLONG_MAX ->
  exists stats,
    process_file fs filepath empty_stats = Some stats
    /\ total_lines stats = Z.of_nat (length (read_lines infile))
    /\ sum_counts (level_counts stats) = total_lines stats.
Proof.
  intros Hfs Hlen. unfold process_file. rewrite Hfs.
  eexists; split; [done|]. rewrite process_loop_fold.
  destruct (counted_fold _ Hlen) as [Htot _ _ Hsum _]. by rewrite Hsum, Htot.
Qed.

(** C5. After the processing pass the values of [message_counts] add up to
    the number of lines whose extracted message is not empty.  The map has
    no entry for the empty message and no entry with a count below 1: the
    entry of a non-empty message is the number of lines that carry it, and a
    line with an empty message leaves the map as it is. *)
Theorem message_counts_sum
    (fs : string -> option string) (filepath infile : string) :
  fs filepath = Some infile ->
  Z.of_nat (length (read_lines infile)) <= LLONG_MAX ->
  exists stats,
    process_file fs filepath empty_stats = Some stats
    /\ sum_counts (message_counts stats) = lines_with_message (read_lines infile)
    /\ message_counts stats !! EmptyString = None
    /\ (forall msg count,
          message_counts stats !! msg = Some count ->
          1 <= count
          /\ count = occurrences extract_message msg (read_lines infile))
    /\ (forall msg,
          msg <> EmptyString ->
          message_counts stats !! msg
          = counter_entry (occurrences extract_message msg (read_lines infile)))
    /\ (forall stats0 line,
          extract_message line = EmptyString ->
          message_counts (process_line stats0 line) = message_counts stats0).
Proof.
  intros Hfs Hlen. unfold process_file. rewrite Hfs.
  eexists; split; [done|]. rewrite process_loop_fold.
  destruct (counted_fold _ Hlen) as [_ _ Hmc _ Hsum].
  repeat split.
  - done.
  - by rewrite Hmc, decide_True.
  - rewrite Hmc in H. case_decide; [done|].
    apply counter_entry_Some in H as [-> Hne].
    pose proof (occurrences_bounds extract_message msg (read_lines infile)). lia.
  - rewrite Hmc in H. case_decide; [done|].
    by apply counter_entry_Some in H as [-> Hne].
  - intros msg Hmsg. by rewrite Hmc, decide_False.
  - intros stats0 line Hmsg. unfold process_line. simpl. by rewrite Hmsg.
Qed.

(** * Levels *)

Lemma match_levels_Some upper r :
  match_levels upper levels = Some r ->
  r ∈ ["TRACE"; "DEBUG"; "INFO"; "WARN"; "ERROR"; "FATAL"].
Proof.
  unfold levels. cbn [match_levels].
  repeat match goal with
         | |- context [String.eqb ?a ?b] =>
             destruct (String.eqb_spec a b) as [->|?];
             [cbn; intros [= <-]; rewrite !elem_of_cons; tauto|]
         end.
  done.
Qed.

Lemma extract_level_in_names line : extract_level line ∈ level_names.
Proof.
  unfold extract_level.
  remember (String.length line) as n eqn:Hn. revert line Hn.
  induction n as [n IH] using lt_wf_ind. intros iss ->.
  rewrite extract_level_loop_eq.
  destruct (IStream.extract iss) as [[token rest]|] eqn:Hext.
  - destruct (match_levels (to_upper token) levels) as [r|] eqn:Hr.
    + apply match_levels_Some in Hr. unfold level_names.
      rewrite !elem_of_cons in Hr. rewrite !elem_of_cons. tauto.
    + eapply IH; [|done]. by eapply extract_shrinks.
  - unfold level_names. rewrite !elem_of_cons. tauto.
Qed.

Lemma level_names_common key : key ∈ level_names -> key ∈ common.
Proof. unfold level_names, common. rewrite !elem_of_cons. tauto. Qed.

Lemma level_keys_fold lines :
  forall stats,
    (forall key, is_Some (level_counts stats !! key) -> key ∈ common) ->
    forall key,
      is_Some (level_counts (fold_left process_line lines stats) !! key) ->
      key ∈ common.
Proof.
  induction lines as [|line lines IH]; intros stats Hstats; [done|].
  simpl. apply IH. intros key. cbn [process_line level_counts].
  rewrite lookup_incr. case_decide as Hk; [|by apply Hstats].
  intros _. subst key. apply level_names_common, extract_level_in_names.
Qed.

Lemma not_in_common_false key : key ∈ common -> not_in_common key = false.
Proof.
  intros Hk. unfold not_in_common. apply negb_false_iff, existsb_exists.
  exists key. split; [by apply list_elem_of_In|apply String.eqb_refl].
Qed.

Lemma print_extra_levels_common (kvs : list (string * Z)) :
  (forall kv, kv ∈ kvs -> kv.1 ∈ common) -> print_extra_levels kvs = EmptyString.
Proof.
  induction kvs as [|kv kvs IH]; intros Hkvs; [done|].
  simpl. rewrite not_in_common_false by (apply Hkvs; left).
  simpl. apply IH. intros kv' Hkv'. apply Hkvs. by right.
Qed.

(** C10. [extract_level] returns one of the seven names TRACE, DEBUG, INFO,
    WARN, ERROR, FATAL, UNKNOWN, so never WARNING; every key of
    [level_counts] after processing a file is in the reporter's [common]
    list, and the reporter's loop over the levels outside [common] writes
    nothing. *)
Theorem levels_closed :
  (forall line, extract_level line ∈ level_names)
  /\ (forall line, extract_level line <> "WARNING")
  /\ (forall infile key,
        is_Some (level_counts (process_loop infile empty_stats) !! key) ->
        key ∈ common)
  /\ (forall infile,
        print_extra_levels
          (map_to_list (level_counts (process_loop infile empty_stats)))
        = EmptyString).
Proof.
  assert (forall infile key,
            is_Some (level_counts (process_loop infile empty_stats) !! key) ->
            key ∈ common) as Hkeys.
  { intros infile key. rewrite process_loop_fold. apply level_keys_fold.
    intros key'. cbn. rewrite lookup_empty. by intros [? ?]. }
  repeat split.
  - apply extract_level_in_names.
  - intros line Heq. pose proof (extract_level_in_names line) as Hin.
    rewrite Heq in Hin. unfold level_names in Hin.
    rewrite !elem_of_cons, elem_of_nil in Hin.
    destruct Hin as [?|[?|[?|[?|[?|[?|[?|[]]]]]]]]; discriminate.
  - done.
  - intros infile. apply print_extra_levels_common. intros [key count] Hkv.
    apply elem_of_map_to_list in Hkv. apply (Hkeys infile). by eexists.
Qed.

(** * The empty file *)

Lemma process_loop_empty stats : process_loop EmptyString stats = stats.
Proof. by rewrite process_loop_eq. Qed.

Lemma print_top_messages_none top_n :
  0 <= top_n ->
  print_top_messages empty_stats top_n = "  (No messages found)" +:+ nl.
Proof.
  intros Hn. unfold print_top_messages, top_limit, sorted_pairs. cbn.
  rewrite map_to_list_empty. cbn [std_sort foldr length].
  replace (Z.min top_n (to_int (Z.of_nat 0))) with 0
    by (change (to_int (Z.of_nat 0)) with 0; lia).
  by rewrite print_top_loop_eq.
Qed.

(** C9. A file with no line leaves [total_lines] at 0 and [level_counts]
    empty, so that no level line is written, and the report carries the
    "(No messages found)" line in place of the numbered list. *)
Theorem empty_file_report
    (fs : string -> option string) (argv : list string)
    (filepath : string) (top_n : Z) :
  parse_args argv = Some (filepath, top_n) ->
  fs filepath = Some EmptyString ->
  read_lines EmptyString = []
  /\ exists stats,
       process_file fs filepath empty_stats = Some stats
       /\ total_lines stats = 0
       /\ level_counts stats = ∅
       /\ message_counts stats = ∅
       /\ print_levels stats = EmptyString
       /\ print_top_messages stats top_n = "  (No messages found)" +:+ nl
       /\ main fs argv
          = mkOutcome 0
              (nl +:+ "Summary" +:+ nl
               +:+ "-------" +:+ nl
               +:+ "Total lines: 0" +:+ nl +:+ nl
               +:+ "Log levels:" +:+ nl
               +:+ nl +:+ "Top messages:" +:+ nl
               +:+ "  (No messages found)" +:+ nl
               +:+ nl)
              EmptyString.
Proof.
  intros Hparse Hfs. split; [by rewrite read_lines_eq|].
  assert (1 <= top_n) as Hn by (by eapply parse_args_ge_1).
  assert (print_levels empty_stats = EmptyString) as Hlevels.
  { unfold print_levels. cbn. by rewrite map_to_list_empty. }
  exists empty_stats. unfold main, process_file.
  rewrite Hparse, Hfs, process_loop_empty.
  repeat split; try done.
  - apply print_top_messages_none. lia.
  - unfold print_results. rewrite Hlevels, print_top_messages_none by lia. done.
Qed.

(** * Level extraction *)

Lemma is_space_isspace c : Ascii.is_space c = CType.isspace c.
Proof. by destruct c as [[] [] [] [] [] [] [] []]. Qed.

(** Inside a word, [String.words] reads on to the next whitespace. *)
Lemma words_go_Some acc s :
  String.words_go (Some acc) s =
  String.rev_app acc (IStream.read_word s).1
  :: String.words_go None (IStream.read_word s).2.
Proof.
  revert acc. induction s as [|c s IH]; intros acc; [done|].
  cbn [String.words_go IStream.read_word]. rewrite is_space_isspace.
  destruct (CType.isspace c) eqn:Hc.
  - cbn. by rewrite is_space_isspace, Hc.
  - cbn [from_option]. rewrite IH. by destruct (IStream.read_word s).
Qed.

(** Between words, [String.words] skips the whitespace. *)
Lemma words_go_skipws s :
  String.words_go None s = String.words_go None (IStream.skipws s).
Proof.
  induction s as [|c s IH]; [done|].
  cbn [IStream.skipws]. destruct (CType.isspace c) eqn:Hc; [|done].
  cbn [String.words_go]. by rewrite is_space_isspace, Hc.
Qed.

(** The tokens that successive [iss >> token] extractions yield are the
    words of the string. *)
Lemma words_extract iss :
  String.words iss =
  match IStream.extract iss with
  | Some (token, rest) => token :: String.words rest
  | None => []
  end.
Proof.
  unfold String.words, IStream.extract. rewrite words_go_skipws.
  destruct (IStream.skipws iss) as [|c s] eqn:Hs; [done|].
  apply skipws_head in Hs as Hc.
  cbn [String.words_go IStream.read_word]. rewrite is_space_isspace, Hc.
  cbn [from_option]. rewrite words_go_Some. by destruct (IStream.read_word s).
Qed.

(** The inner loop of [extract_level] against [is_level_token]. *)
Lemma match_levels_is_level_token token :
  match_levels (to_upper token) levels =
  if is_level_token token
  then Some (if String.eqb (to_upper token) "WARNING" then "WARN"
             else to_upper token)
  else None.
Proof.
  unfold is_level_token, ci_equal, levels. cbn.
  generalize (to_upper token) as upper. intros upper.
  repeat match goal with
         | |- context [String.eqb upper ?b] =>
             destruct (String.eqb_spec upper b) as [->|?]; [done|]
         end.
  done.
Qed.

Lemma upper_letter_toupper c : upper_letter c = CType.toupper c.
Proof. by destruct c as [[] [] [] [] [] [] [] []]. Qed.

Lemma upper_case_to_upper s : upper_case s = to_upper s.
Proof.
  induction s as [|c s IH]; simpl; [done|]. by rewrite upper_letter_toupper, IH.
Qed.

Lemma is_candidate_is_level_token token :
  is_candidate token = is_level_token token.
Proof.
  unfold is_candidate, is_level_token, level_candidates, levels.
  unfold equal_ignoring_case, ci_equal. cbn [existsb].
  by rewrite !upper_case_to_upper.
Qed.

(** C1. [extract_level] splits the line into its whitespace-delimited tokens,
    scans them from the left and returns the first one that equals TRACE,
    DEBUG, INFO, WARN, WARNING, ERROR or FATAL case-insensitively, in upper
    case and with WARNING turned into WARN; it returns UNKNOWN when no token
    matches. *)
Theorem extract_level_correct (line : string) :
  extract_level line = extract_level_spec line.
Proof.
  unfold extract_level, extract_level_spec.
  remember (String.length line) as n eqn:Hn. revert line Hn.
  induction n as [n IH] using lt_wf_ind. intros iss ->.
  rewrite extract_level_loop_eq, words_extract.
  destruct (IStream.extract iss) as [[token rest]|] eqn:Hext; [|done].
  cbn [List.find].
  rewrite match_levels_is_level_token, is_candidate_is_level_token.
  destruct (is_level_token token); [by rewrite upper_case_to_upper|].
  eapply IH; [|done]. by eapply extract_shrinks.
Qed.

(** * Facts about strings *)

Section StringFacts.

Local Open Scope nat_scope.

Lemma str_app_cons x (a b : string) : String x a +:+ b = String x (a +:+ b).
Proof. done. Qed.

Lemma str_app_nil_l (b : string) : "" +:+ b = b.
Proof. done. Qed.

Lemma str_app_assoc (a b c : string) : (a +:+ b) +:+ c = a +:+ b +:+ c.
Proof.
  induction a as [|x a IH]; [done|]. by rewrite !str_app_cons, IH.
Qed.

Lemma str_app_nil_r (a : string) : a +:+ "" = a.
Proof. induction a as [|x a IH]; [done|]. by rewrite str_app_cons, IH. Qed.

Lemma str_length_app (a b : string) :
  String.length (a +:+ b) = String.length a + String.length b.
Proof.
  induction a as [|x a IH]; [done|]. rewrite str_app_cons. simpl. by rewrite IH.
Qed.

Lemma at_app_r (a b : string) i :
  StdString.at_ (a +:+ b) (String.length a + i) = StdString.at_ b i.
Proof.
  unfold StdString.at_. by rewrite Nat.add_comm, <- String.append_correct2.
Qed.

Lemma at_app_l (a b : string) i :
  i < String.length a -> StdString.at_ (a +:+ b) i = StdString.at_ a i.
Proof.
  intros Hi. unfold StdString.at_. by rewrite <- String.append_correct1.
Qed.

Lemma substring_zero n (s : string) : String.substring n 0 s = "".
Proof. revert n. induction s as [|c s IH]; intros [|n]; simpl; auto. Qed.

Lemma substring_prefix (b c : string) :
  String.substring 0 (String.length b) (b +:+ c) = b.
Proof.
  induction b as [|x b IH]; [apply substring_zero|].
  rewrite str_app_cons. simpl. by rewrite IH.
Qed.

Lemma substring_app (a b c : string) :
  String.substring (String.length a) (String.length b) (a +:+ b +:+ c) = b.
Proof.
  induction a as [|x a IH]; [rewrite str_app_nil_l; apply substring_prefix|].
  rewrite str_app_cons. simpl. done.
Qed.

Lemma substr_from_app (a b : string) :
  StdString.substr_from (a +:+ b) (String.length a) = b.
Proof.
  induction a as [|x a IH]; [rewrite str_app_nil_l; by destruct b|].
  rewrite str_app_cons. simpl. done.
Qed.

Lemma all_space_app (a b : string) :
  all_space (a +:+ b) = all_space a && all_space b.
Proof.
  induction a as [|x a IH]; [done|]. rewrite str_app_cons. simpl.
  rewrite IH. by destruct (CType.isspace x).
Qed.

Lemma all_space_at (ws : string) i :
  all_space ws = true -> i < String.length ws ->
  CType.isspace (StdString.at_ ws i) = true.
Proof.
  revert i. induction ws as [|c ws IH]; intros i Hws Hi; simpl in *; [lia|].
  apply andb_true_iff in Hws as [Hc Hws]. destruct i as [|i]; [done|].
  apply IH; [done|lia].
Qed.

Lemma at_app_r0 (a b : string) :
  StdString.at_ (a +:+ b) (String.length a) = StdString.at_ b 0.
Proof. by rewrite <- (at_app_r a b 0), Nat.add_0_r. Qed.

Lemma str_length_pos (t : string) : t <> "" -> 0 < String.length t.
Proof. destruct t; [done|simpl; lia]. Qed.

(** ** trim against [stripped_of] *)

Lemma trim_start_at_end s : trim_start s (String.length s) = String.length s.
Proof. rewrite trim_start_eq. by rewrite Nat.ltb_irrefl. Qed.

(** The first loop walks over a run of whitespace. *)
Lemma trim_start_spaces pre ws rest :
  all_space ws = true ->
  trim_start (pre +:+ ws +:+ rest) (String.length pre)
  = trim_start (pre +:+ ws +:+ rest) (String.length pre + String.length ws).
Proof.
  revert pre. induction ws as [|c ws IH]; intros pre Hws.
  - simpl. by rewrite Nat.add_0_r.
  - simpl in Hws. apply andb_true_iff in Hws as [Hc Hws].
    rewrite trim_start_eq, at_app_r0, str_app_cons. unfold StdString.at_ at 1.
    simpl String.get. simpl default. rewrite Hc, andb_true_r.
    replace (String.length pre <? String.length (pre +:+ String c (ws +:+ rest)))
      with true
      by (symmetry; apply Nat.ltb_lt; rewrite str_length_app; simpl; lia).
    specialize (IH (pre +:+ String c "") Hws).
    rewrite str_app_assoc, str_app_cons, str_app_nil_l, str_length_app in IH.
    simpl in IH.
    replace (String.length pre + 1) with (S (String.length pre)) in IH by lia.
    rewrite IH. f_equal. simpl. lia.
Qed.

Lemma trim_end_ge s start end_ :
  end_ <= start -> trim_end s start end_ = end_.
Proof.
  intros Hle. destruct end_ as [|e]; [done|]. simpl.
  destruct (Nat.ltb_spec start (S e)); [lia|done].
Qed.

(** The second loop walks back over a run of whitespace and stops at
    [base], which is [start] or follows a character that is no whitespace. *)
Lemma trim_end_spaces s start base k :
  (forall i, i < k -> CType.isspace (StdString.at_ s (base + i)) = true) ->
  start <= base ->
  (base = start \/ CType.isspace (StdString.at_ s (base - 1)) = false) ->
  trim_end s start (base + k) = base.
Proof.
  intros Hws Hle Hbase. induction k as [|k IH].
  - rewrite Nat.add_0_r. destruct base as [|e]; [done|]. simpl.
    destruct Hbase as [<-|Hbase]; [by rewrite Nat.ltb_irrefl|].
    simpl in Hbase. rewrite Nat.sub_0_r in Hbase. by rewrite Hbase, andb_false_r.
  - rewrite Nat.add_succ_r. simpl.
    rewrite (Hws k) by lia. rewrite andb_true_r.
    destruct (Nat.ltb_spec start (S (base + k))); [|lia].
    apply IH. intros i Hi. apply Hws. lia.
Qed.

Lemma trim_all_space s : all_space s = true -> trim s = "".
Proof.
  intros Hs. unfold trim.
  pose proof (trim_start_spaces "" s "" Hs) as Hstart.
  rewrite str_app_nil_l, str_app_nil_r in Hstart. simpl in Hstart.
  rewrite Hstart, trim_start_at_end, trim_end_ge by done.
  unfold StdString.substr. by rewrite Nat.sub_diag, substring_zero.
Qed.

Lemma trim_stripped s t : stripped_of s t -> trim s = t.
Proof.
  intros (l & r & -> & Hl & Hr & Ht).
  destruct (decide (t = "")) as [->|Hne].
  { apply trim_all_space. rewrite str_app_nil_l, all_space_app. by rewrite Hl, Hr. }
  destruct Ht as [->|[Hfirst Hlast]]; [done|].
  apply str_length_pos in Hne.
  unfold trim.
  pose proof (trim_start_spaces "" l (t +:+ r) Hl) as Hstart.
  rewrite str_app_nil_l in Hstart. simpl in Hstart.
  assert (trim_start (l +:+ t +:+ r) 0 = String.length l) as ->.
  { rewrite Hstart, trim_start_eq, at_app_r0, at_app_l, Hfirst by done.
    by rewrite andb_false_r. }
  assert (trim_end (l +:+ t +:+ r) (String.length l)
            (String.length (l +:+ t +:+ r))
          = String.length l + String.length t) as ->.
  { rewrite !str_length_app, Nat.add_assoc. apply trim_end_spaces.
    - intros i Hi. rewrite <- str_app_assoc, <- str_length_app, at_app_r.
      by apply all_space_at.
    - lia.
    - right.
      replace (String.length l + String.length t - 1)
        with (String.length l + (String.length t - 1)) by lia.
      rewrite at_app_r, at_app_l by lia. done. }
  unfold StdString.substr.
  replace (String.length l + String.length t - String.length l)
    with (String.length t) by lia.
  apply substring_app.
Qed.

(** Every string has a stripped form. *)
Lemma stripped_of_total s : exists t, stripped_of s t.
Proof.
  induction s as [|c s (t & l & r & -> & Hl & Hr & Ht)].
  - exists "", "", "". repeat split; auto.
  - destruct (CType.isspace c) eqn:Hc.
    + exists t, (String c l), r. repeat split; [|done|done].
      simpl. by rewrite Hc, Hl.
    + destruct (decide (t = "")) as [->|Hne].
      * exists (String c ""), "", (l +:+ r). repeat split.
        -- by rewrite all_space_app, Hl, Hr.
        -- by right.
      * destruct Ht as [->|[Hfirst Hlast]]; [done|].
        apply str_length_pos in Hne.
        exists (String c (l +:+ t)), "", r. repeat split.
        -- by rewrite str_app_nil_l, !str_app_cons, str_app_assoc.
        -- done.
        -- right. split; [done|]. simpl. rewrite Nat.sub_0_r.
           unfold StdString.at_ in *. rewrite str_length_app.
           destruct (String.length l + String.length t) as [|n] eqn:Hn; [lia|].
           simpl. replace n with (String.length l + (String.length t - 1)) by lia.
           pose proof (at_app_r l t (String.length t - 1)) as Hat.
           unfold StdString.at_ in Hat. by rewrite Hat.
Qed.

(** [trim s] is [s] stripped, and nothing else is. *)
Lemma trim_spec s t : stripped_of s t <-> trim s = t.
Proof.
  split; [apply trim_stripped|]. intros <-.
  destruct (stripped_of_total s) as [t Ht].
  by rewrite (trim_stripped s t Ht).
Qed.

End StringFacts.

(** * Message extraction *)

Section Find.

Local Open Scope nat_scope.

Lemma find_eq s marker :
  StdString.find s marker =
  if String.prefix marker s then Some 0
  else match s with
       | EmptyString => None
       | String _ s' => S <$> StdString.find s' marker
       end.
Proof. by destruct s. Qed.

Lemma occurs_eq marker s :
  occurs marker s =
  String.prefix marker s
  || match s with
     | EmptyString => false
     | String _ s' => occurs marker s'
     end.
Proof. by destruct s. Qed.

Lemma prefix_app (m b : string) : String.prefix m (m +:+ b) = true.
Proof.
  induction m as [|y m IH]; [by destruct b|].
  rewrite str_app_cons. simpl. by destruct (ascii_dec y y).
Qed.

Lemma prefix_inv (m s : string) :
  String.prefix m s = true -> exists b, s = m +:+ b.
Proof.
  revert s. induction m as [|y m IH]; intros s Hp; [by exists s|].
  destruct s as [|z s]; [done|]. simpl in Hp.
  destruct (ascii_dec y z) as [->|]; [|done].
  destruct (IH s Hp) as [b ->]. by exists b.
Qed.

(** Whether [m] starts a string depends on the first [length m] characters
    only. *)
Lemma prefix_short (m a b : string) :
  String.prefix m (a +:+ b) = true ->
  String.length m <= String.length a ->
  String.prefix m a = true.
Proof.
  revert a. induction m as [|y m IH]; intros a Hp Hlen; [by destruct a|].
  destruct a as [|z a]; [simpl in Hlen; lia|].
  rewrite str_app_cons in Hp. simpl in *.
  destruct (ascii_dec y z); [|done]. apply IH; [done|lia].
Qed.

(** [occurs] is the existence of an occurrence. *)
Lemma occurs_spec marker s :
  occurs marker s = true <-> exists a b, s = a +:+ marker +:+ b.
Proof.
  split.
  - induction s as [|c s IH]; rewrite occurs_eq; intros H.
    + apply orb_true_iff in H as [H|H]; [|done].
      apply prefix_inv in H as [b ->]. by exists "", b.
    + apply orb_true_iff in H as [H|H].
      * apply prefix_inv in H as [b ->]. by exists "", b.
      * destruct (IH H) as (a & b & ->). by exists (String c a), b.
  - intros (a & b & ->). induction a as [|c a IH]; rewrite occurs_eq.
    + by rewrite str_app_nil_l, prefix_app.
    + rewrite str_app_cons, IH. apply orb_true_r.
Qed.

Lemma find_None s marker :
  occurs marker s = false -> StdString.find s marker = None.
Proof.
  induction s as [|c s IH]; rewrite occurs_eq, find_eq; intros H;
    apply orb_false_iff in H as [-> H]; [done|].
  by rewrite IH.
Qed.

(** [find] returns the position of an occurrence that no occurrence
    precedes: one before which the marker does not even fit with its last
    character cut off. *)
Lemma find_first pre k x post :
  occurs (k +:+ String x "") (pre +:+ k) = false ->
  StdString.find (pre +:+ (k +:+ String x "") +:+ post) (k +:+ String x "")
  = Some (String.length pre).
Proof.
  induction pre as [|c pre IH]; intros Hocc.
  - by rewrite str_app_nil_l, find_eq, prefix_app.
  - rewrite occurs_eq, str_app_cons in Hocc.
    apply orb_false_iff in Hocc as [Hp Hocc].
    rewrite find_eq, str_app_cons.
    destruct (String.prefix (k +:+ String x "")
                (String c (pre +:+ (k +:+ String x "") +:+ post))) eqn:Hp'.
    + rewrite (str_app_assoc k), <- (str_app_assoc pre k), <- str_app_cons in Hp'.
      apply prefix_short in Hp'; [congruence|].
      rewrite !str_length_app. simpl. rewrite !str_length_app. simpl. lia.
    + by rewrite IH.
Qed.

End Find.

Lemma isspace_spec c : CType.isspace c = true <-> c ∈ whitespace_chars.
Proof.
  rewrite <- (bool_decide_spec (c ∈ whitespace_chars)), <- Is_true_true.
  by destruct c as [[] [] [] [] [] [] [] []].
Qed.

(** C2. [extract_message] returns what follows the first occurrence of the
    separator " - " in the line, with leading and trailing whitespace
    stripped; when the separator does not occur, it returns the whole line
    with leading and trailing whitespace stripped; whitespace is space, tab,
    newline, carriage return, form feed and vertical tab.  (An occurrence at
    [pre] is the first one when the separator does not occur in [pre]
    followed by the first two characters of the separator.) *)
Theorem extract_message_correct (line : string) :
  (forall pre post,
     line = pre +:+ " - " +:+ post ->
     occurs " - " (pre +:+ " -") = false ->
     stripped_of post (extract_message line))
  /\ (occurs " - " line = false -> stripped_of line (extract_message line))
  /\ (forall c, CType.isspace c = true <-> c ∈ whitespace_chars).
Proof.
  split; [|split; [|apply isspace_spec]].
  - intros pre post -> Hfirst. apply trim_spec. unfold extract_message.
    pose proof (find_first pre " -" " " post) as Hfind.
    change (" -" +:+ String " " "") with " - " in Hfind.
    rewrite (Hfind Hfirst). f_equal.
    rewrite <- str_app_assoc, <- (str_length_app pre " - ").
    symmetry. apply substr_from_app.
  - intros Hnone. apply trim_spec. unfold extract_message.
    by rewrite (find_None _ _ Hnone).
Qed.

(** * The ranking of the messages *)

Section StringOrder.

Lemma compare_refl (a : string) : String.compare a a = Eq.
Proof.
  pose proof (String.compare_antisym a a) as H.
  by destruct (String.compare a a).
Qed.


Lemma ltb_irrefl (a : string) : String.ltb a a = false.
Proof. unfold String.ltb. by rewrite compare_refl. Qed.




End StringOrder.

Section Ranking.

Implicit Types a b c : string * Z.
Implicit Types l : list (string * Z).





Lemma sort_insert_perm (comp : string * Z -> string * Z -> bool) a l :
  sort_insert comp a l ≡ₚ a :: l.
Proof.
  induction l as [|b l IH]; simpl; [done|].
  destruct (comp a b); [done|]. rewrite IH. apply perm_swap.
Qed.

Lemma std_sort_perm (comp : string * Z -> string * Z -> bool) l :
  std_sort comp l ≡ₚ l.
Proof.
  induction l as [|a l IH]; simpl; [done|].
  by rewrite sort_insert_perm, IH.
Qed.




End Ranking.

(** * The top-messages list *)



Lemma length_sorted_pairs stats :
  length (sorted_pairs stats) = size (message_counts stats).
Proof.
  unfold sorted_pairs. by rewrite std_sort_perm, length_map_to_list.
Qed.

(** Beyond the range of [int] the cast of [pairs.size()] wraps: with 2^31
    distinct messages [limit] is negative and the loop writes nothing. *)
Lemma top_limit_beyond_int stats top_n :
  Z.of_nat (size (message_counts stats)) = 2 ^ 31 ->
  INT_MIN <= top_n ->
  top_limit stats top_n = INT_MIN
  /\ print_top_messages stats top_n = EmptyString.
Proof.
  intros Hsize Hn. unfold print_top_messages, top_limit.
  rewrite length_sorted_pairs, Hsize.
  change (to_int (2 ^ 31)) with INT_MIN. rewrite Z.min_r by done.
  split; [done|]. by rewrite print_top_loop_eq.
Qed.


(** * The theorems at work on the sample file *)

Lemma extract_message_correct_witness :
  (occurs " - " ("a b" +:+ " -") = false
   /\ stripped_of "  c - d  " (extract_message "a b -   c - d  "))
  /\ (occurs " - " " plain-text " = false
      /\ stripped_of " plain-text " (extract_message " plain-text ")).
Proof.
  split; (split; [reflexivity|]).
  - apply (proj1 (extract_message_correct "a b -   c - d  ") "a b" "  c - d  ");
      reflexivity.
  - apply (proj1 (proj2 (extract_message_correct " plain-text "))). reflexivity.
Defined.


Lemma total_lines_and_level_sum_witness :
  sample_fs "sample.log" = Some sample_log
  /\ Z.of_nat (length (read_lines sample_log)) <= LLONG_MAX
  /\ exists stats,
       process_file sample_fs "sample.log" empty_stats = Some stats
       /\ total_lines stats = Z.of_nat (length (read_lines sample_log))
       /\ sum_counts (level_counts stats) = total_lines stats.
Proof.
  assert (Z.of_nat (length (read_lines sample_log)) <= LLONG_MAX) as Hlen
    by (vm_compute; discriminate).
  split; [reflexivity|]. split; [exact Hlen|].
  apply (total_lines_and_level_sum sample_fs "sample.log" sample_log eq_refl Hlen).
Defined.

Lemma message_counts_sum_witness :
  sample_fs "sample.log" = Some sample_log
  /\ Z.of_nat (length (read_lines sample_log)) <= LLONG_MAX
  /\ exists stats,
       process_file sample_fs "sample.log" empty_stats = Some stats
       /\ sum_counts (message_counts stats)
          = lines_with_message (read_lines sample_log)
       /\ message_counts stats !! EmptyString = None.
Proof.
  assert (Z.of_nat (length (read_lines sample_log)) <= LLONG_MAX) as Hlen
    by (vm_compute; discriminate).
  split; [reflexivity|]. split; [exact Hlen|].
  destruct (message_counts_sum sample_fs "sample.log" sample_log eq_refl Hlen)
    as (stats & Hfile & Hsum & Hempty & _).
  exists stats. auto.
Defined.

Lemma parse_args_top_n_witness :
  StdLib.stoi "0" = Some 0
  /\ parse_args ["log_parser"; "sample.log"; "--top"; "0"] = Some ("sample.log", 1)
  /\ 1 <= 1.
Proof.
  assert (parse_args ["log_parser"; "sample.log"; "--top"; "0"]
          = Some ("sample.log", 1)) as Hparse.
  { apply (proj1 (proj2 parse_args_top_n) "log_parser" "sample.log" "0" 0);
      [reflexivity|lia]. }
  split; [reflexivity|]. split; [exact Hparse|].
  apply (proj1 parse_args_top_n _ _ _ Hparse).
Defined.

Lemma empty_file_report_witness :
  parse_args ["log_parser"; "empty.log"] = Some ("empty.log", 5)
  /\ sample_fs "empty.log" = Some EmptyString
  /\ exit_code (main sample_fs ["log_parser"; "empty.log"]) = 0.
Proof.
  split; [reflexivity|]. split; [reflexivity|].
  destruct (empty_file_report sample_fs ["log_parser"; "empty.log"]
              "empty.log" 5 eq_refl eq_refl)
    as (_ & stats & _ & _ & _ & _ & _ & _ & ->).
  reflexivity.
Defined.

Lemma levels_closed_witness :
  is_Some (level_counts (process_loop sample_log empty_stats) !! "INFO")
  /\ "INFO" ∈ common.
Proof.
  assert (is_Some (level_counts (process_loop sample_log empty_stats) !! "INFO"))
    as Hkey by (exists 2; reflexivity).
  split; [exact Hkey|].
  apply (proj1 (proj2 (proj2 levels_closed)) sample_log "INFO" Hkey).
Defined.

(** * Further properties of the program *)

(** ** trim *)

Lemma stripped_of_self s t : stripped_of s t -> stripped_of t t.
Proof.
  intros (l & r & _ & _ & _ & Ht). exists "", "".
  by rewrite str_app_nil_l, str_app_nil_r.
Qed.

Lemma trim_is_stripped s : stripped_of s (trim s).
Proof. by apply trim_spec. Qed.

(** X1. [trim s] is a piece of [s]: [s] is a run of whitespace, then
    [trim s], then a run of whitespace, and [trim s] neither starts nor ends
    with whitespace; so [trim s] is never longer than [s]. *)
Theorem trim_strips (s : string) :
  (exists l r,
     s = l +:+ trim s +:+ r
     /\ all_space l = true
     /\ all_space r = true
     /\ (trim s = EmptyString
         \/ (CType.isspace (StdString.at_ (trim s) 0) = false
             /\ CType.isspace
                  (StdString.at_ (trim s) (String.length (trim s) - 1)) = false)))
  /\ (String.length (trim s) <= String.length s)%nat.
Proof.
  pose proof (trim_is_stripped s) as Hs. split; [exact Hs|].
  destruct Hs as (l & r & Heq & _).
  rewrite Heq at 2. rewrite !str_length_app. lia.
Qed.

(** X2. [trim] is idempotent: trimming a trimmed string changes nothing. *)
Theorem trim_idempotent (s : string) : trim (trim s) = trim s.
Proof.
  apply trim_stripped. eapply stripped_of_self. apply trim_is_stripped.
Qed.

(** X3. [trim s] is empty exactly when [s] is made of whitespace only (the
    empty string included). *)
Theorem trim_empty_iff (s : string) :
  trim s = EmptyString <-> all_space s = true.
Proof.
  split; [|apply trim_all_space].
  intros Hs. destruct (trim_is_stripped s) as (l & r & Heq & Hl & Hr & _).
  rewrite Hs, str_app_nil_l in Heq. by rewrite Heq, all_space_app, Hl, Hr.
Qed.

(** ** extract_message *)

(** X4. The message that [extract_message] returns is trimmed: trimming it
    again changes nothing, and it is empty or has no whitespace at either
    end. *)
Theorem extract_message_trimmed (line : string) :
  trim (extract_message line) = extract_message line
  /\ (extract_message line = EmptyString
      \/ (CType.isspace (StdString.at_ (extract_message line) 0) = false
          /\ CType.isspace
               (StdString.at_ (extract_message line)
                  (String.length (extract_message line) - 1)) = false)).
Proof.
  assert (exists s, extract_message line = trim s) as [s ->].
  { unfold extract_message. destruct (StdString.find line " - "); eauto. }
  split.
  - apply trim_stripped. eapply stripped_of_self. apply trim_is_stripped.
  - by destruct (trim_is_stripped s) as (l & r & _ & _ & _ & Hends).
Qed.

(** ** The lines that process_file reads *)

Section Lines.

Local Open Scope nat_scope.

Lemma nl_app rest : nl +:+ rest = String "010" rest.
Proof. done. Qed.

Lemma read_line_app a rest :
  has_newline a = false -> IStream.read_line (a +:+ nl +:+ rest) = (a, rest).
Proof.
  induction a as [|c a IH]; intros Ha; [done|].
  simpl in Ha. apply orb_false_iff in Ha as [Hc Ha].
  rewrite str_app_cons. simpl. by rewrite Hc, IH.
Qed.

Lemma read_line_no_newline a :
  has_newline a = false -> IStream.read_line a = (a, "").
Proof.
  induction a as [|c a IH]; intros Ha; [done|].
  simpl in Ha. apply orb_false_iff in Ha as [Hc Ha].
  simpl. by rewrite Hc, IH.
Qed.

Lemma read_line_has_no_newline s : has_newline (IStream.read_line s).1 = false.
Proof.
  induction s as [|c s IH]; [done|]. simpl.
  destruct (Ascii.eqb c "010") eqn:Hc; [done|].
  destruct (IStream.read_line s). simpl in *. by rewrite Hc.
Qed.

Lemma getline_Some s line rest :
  IStream.getline s = Some (line, rest) -> IStream.read_line s = (line, rest).
Proof. destruct s; [done|]. unfold IStream.getline. congruence. Qed.

Lemma read_lines_nil : read_lines "" = [].
Proof. by rewrite read_lines_eq. Qed.

Lemma read_lines_cons a rest :
  has_newline a = false ->
  read_lines (a +:+ nl +:+ rest) = a :: read_lines rest.
Proof.
  intros Ha. rewrite read_lines_eq. unfold IStream.getline.
  rewrite read_line_app by done.
  destruct a; [by rewrite str_app_nil_l, nl_app|by rewrite str_app_cons].
Qed.

Lemma read_lines_single a :
  has_newline a = false -> a <> "" -> read_lines a = [a].
Proof.
  intros Ha Hne. rewrite read_lines_eq. unfold IStream.getline.
  rewrite read_line_no_newline by done. destruct a; [done|].
  by rewrite read_lines_nil.
Qed.

(** A string has no newline or splits at its first newline. *)
Lemma split_newline s :
  has_newline s = false
  \/ exists a b, s = a +:+ nl +:+ b /\ has_newline a = false.
Proof.
  induction s as [|c s IH]; [by left|]. simpl.
  destruct (Ascii.eqb_spec c "010") as [->|Hc]; simpl.
  - right. by exists "", s.
  - destruct IH as [Hs|(a & b & -> & Ha)]; [by left|].
    right. exists (String c a), b. split; [done|]. simpl.
    destruct (Ascii.eqb_spec c "010"); done.
Qed.

Lemma ends_with_newline_app a b :
  b <> "" -> ends_with_newline (a +:+ b) = ends_with_newline b.
Proof.
  intros Hb. induction a as [|c a IH]; [done|].
  rewrite str_app_cons. simpl. rewrite IH.
  destruct (a +:+ b) eqn:Hab; [|done]. by destruct a, b.
Qed.

Lemma read_lines_terminated s : join_lines (read_lines (s +:+ nl)) = s +:+ nl.
Proof.
  remember (String.length s) as n eqn:Hn. revert s Hn.
  induction n as [n IH] using lt_wf_ind. intros s ->.
  destruct (split_newline s) as [Hs|(a & b & -> & Ha)].
  - rewrite <- (str_app_nil_r nl) at 1. rewrite read_lines_cons by done.
    by rewrite read_lines_nil.
  - rewrite !str_app_assoc, read_lines_cons by done. simpl.
    rewrite (IH (String.length b)); [done| |done].
    rewrite !str_length_app. simpl. lia.
Qed.

Lemma read_lines_final_newline s :
  s <> "" -> ends_with_newline s = false ->
  read_lines (s +:+ nl) = read_lines s.
Proof.
  remember (String.length s) as n eqn:Hn. revert s Hn.
  induction n as [n IH] using lt_wf_ind. intros s -> Hne Hend.
  destruct (split_newline s) as [Hs|(a & b & -> & Ha)].
  - rewrite <- (str_app_nil_r nl), read_lines_cons, read_lines_nil by done.
    by rewrite read_lines_single.
  - destruct (decide (b = "")) as [->|Hb].
    { rewrite ends_with_newline_app in Hend; done. }
    rewrite <- str_app_assoc, ends_with_newline_app in Hend by done.
    rewrite !str_app_assoc, !read_lines_cons by done. f_equal.
    apply (IH (String.length b)); [|done..].
    rewrite !str_length_app. simpl. lia.
Qed.

Lemma read_lines_no_newline s line :
  line ∈ read_lines s -> has_newline line = false.
Proof.
  remember (String.length s) as n eqn:Hn. revert s Hn.
  induction n as [n IH] using lt_wf_ind. intros s ->.
  rewrite read_lines_eq.
  destruct (IStream.getline s) as [[l rest]|] eqn:Hget; [|by intros ?%elem_of_nil].
  intros [->|Hin]%elem_of_cons.
  - pose proof (read_line_has_no_newline s) as H.
    by rewrite (getline_Some _ _ _ Hget) in H.
  - eapply IH; [|done|done]. by eapply getline_shrinks.
Qed.

End Lines.

(** X5. The lines read reassemble the file: for a file that ends with a
    newline, the lines read, each followed by a newline, are the file; a
    missing final newline changes neither the lines read nor the statistics;
    no line read holds a newline. *)
Theorem read_lines_reassemble :
  (forall s, join_lines (read_lines (s +:+ nl)) = s +:+ nl)
  /\ (forall s stats,
        s <> EmptyString -> ends_with_newline s = false ->
        read_lines (s +:+ nl) = read_lines s
        /\ process_loop (s +:+ nl) stats = process_loop s stats)
  /\ (forall s line, line ∈ read_lines s -> has_newline line = false).
Proof.
  split; [apply read_lines_terminated|]. split; [|apply read_lines_no_newline].
  intros s stats Hne Hend. split; [by apply read_lines_final_newline|].
  by rewrite !process_loop_fold, read_lines_final_newline.
Qed.

(** X6. Writing lines and reading them back: the file made of lines without
    newline characters, each followed by a newline, is read as these lines,
    blank ones included. *)
Theorem read_lines_join_lines (lines : list string) :
  Forall (fun line => has_newline line = false) lines ->
  read_lines (join_lines lines) = lines.
Proof.
  induction 1 as [|line lines Hline _ IH]; simpl; [apply read_lines_nil|].
  by rewrite read_lines_cons, IH.
Qed.

(** ** The statistics of a file *)

Lemma counted_process_loop infile :
  Z.of_nat (length (read_lines infile)) <= LLONG_MAX ->
  counted (read_lines infile) (process_loop infile empty_stats).
Proof. intros Hlen. rewrite process_loop_fold. by apply counted_fold. Qed.

Lemma level_keys_process_loop infile key :
  is_Some (level_counts (process_loop infile empty_stats) !! key) ->
  key ∈ common.
Proof.
  rewrite process_loop_fold. apply level_keys_fold.
  intros key'. cbn. rewrite lookup_empty. by intros [? ?].
Qed.


(** X7. After the processing pass the entry of a level in [level_counts] is
    the number of lines of that level, and there is no entry for a level
    that no line has.  The number of lines is assumed to fit a
    [long long]. *)
Theorem level_counts_per_level (infile key : string) :
  Z.of_nat (length (read_lines infile)) <= LLONG_MAX ->
  level_counts (process_loop infile empty_stats) !! key
  = counter_entry (occurrences extract_level key (read_lines infile)).
Proof.
  intros Hlen. by destruct (counted_process_loop infile Hlen) as [_ Hlc _ _ _].
Qed.


Lemma occurrences_perm f key lines1 lines2 :
  lines1 ≡ₚ lines2 -> occurrences f key lines1 = occurrences f key lines2.
Proof. intros Hperm. unfold occurrences. by rewrite Hperm. Qed.

Lemma lines_with_message_perm lines1 lines2 :
  lines1 ≡ₚ lines2 -> lines_with_message lines1 = lines_with_message lines2.
Proof. intros Hperm. unfold lines_with_message. by rewrite Hperm. Qed.

Lemma counted_unique lines stats1 stats2 :
  counted lines stats1 -> counted lines stats2 -> stats1 = stats2.
Proof.
  intros [Ht1 Hl1 Hm1 _ _] [Ht2 Hl2 Hm2 _ _].
  destruct stats1 as [t1 lc1 mc1], stats2 as [t2 lc2 mc2]. simpl in *.
  f_equal; [congruence|apply map_eq; intros key..].
  - by rewrite Hl1, Hl2.
  - by rewrite Hm1, Hm2.
Qed.

(** X9. The statistics do not depend on the order of the lines: two files
    whose lines are the same up to their order give the same [Stats], hence
    the same report.  The number of lines is assumed to fit a
    [long long]. *)
Theorem stats_order_independent (infile1 infile2 : string) (top_n : Z) :
  read_lines infile1 ≡ₚ read_lines infile2 ->
  Z.of_nat (length (read_lines infile1)) <= LLONG_MAX ->
  process_loop infile1 empty_stats = process_loop infile2 empty_stats
  /\ print_results (process_loop infile1 empty_stats) top_n
     = print_results (process_loop infile2 empty_stats) top_n.
Proof.
  intros Hperm Hlen.
  assert (process_loop infile1 empty_stats = process_loop infile2 empty_stats)
    as Heq; [|by rewrite Heq].
  apply (counted_unique (read_lines infile2)).
  - destruct (counted_process_loop infile1 Hlen) as [Ht Hl Hm Hls Hms].
    split.
    + by rewrite Ht, Hperm.
    + intros key. by rewrite Hl, (occurrences_perm _ _ _ _ Hperm).
    + intros key. by rewrite Hm, (occurrences_perm _ _ _ _ Hperm).
    + by rewrite Hls, Hperm.
    + by rewrite Hms, (lines_with_message_perm _ _ Hperm).
  - apply counted_process_loop. by rewrite <- Hperm.
Qed.

(** ** The keys of the two maps *)

Lemma is_Some_incr key key' (m : gmap string Z) :
  is_Some (incr key m !! key') <-> key = key' \/ is_Some (m !! key').
Proof.
  rewrite lookup_incr. case_decide as Hk.
  - split; [by left|]. by eexists.
  - split; [by right|]. by intros [?|?].
Qed.

(** [keyed seen stats]: the keys of the two maps of [stats] are the levels
    and the non-empty messages of the lines [seen]. *)
Lemma keyed_step seen stats line :
  ((forall key,
      is_Some (level_counts stats !! key)
      <-> exists l, l ∈ seen /\ extract_level l = key)
   /\ (forall key,
         is_Some (message_counts stats !! key)
         <-> key <> EmptyString /\ exists l, l ∈ seen /\ extract_message l = key)) ->
  (forall key,
     is_Some (level_counts (process_line stats line) !! key)
     <-> exists l, l ∈ seen ++ [line] /\ extract_level l = key)
  /\ (forall key,
        is_Some (message_counts (process_line stats line) !! key)
        <-> key <> EmptyString
            /\ exists l, l ∈ seen ++ [line] /\ extract_message l = key).
Proof.
  intros [Hlc Hmc]. split; intros key;
    cbn [process_line level_counts message_counts].
  - rewrite is_Some_incr, Hlc. split.
    + intros [<-|(l & Hl & <-)].
      * exists line. split; [|done]. apply elem_of_app. right. by left.
      * exists l. split; [|done]. apply elem_of_app. by left.
    + intros (l & [Hl|Hl%list_elem_of_singleton]%elem_of_app & <-).
      * right. by exists l.
      * left. by subst.
  - destruct (String.eqb_spec (extract_message line) EmptyString) as [Hmsg|Hmsg];
      simpl.
    + rewrite Hmc. split.
      * intros (Hne & l & Hl & <-). split; [done|].
        exists l. split; [|done]. apply elem_of_app. by left.
      * intros (Hne & l & [Hl|Hl%list_elem_of_singleton]%elem_of_app & <-).
        -- split; [done|]. by exists l.
        -- subst. by rewrite Hmsg in Hne.
    + rewrite is_Some_incr, Hmc. split.
      * intros [<-|(Hne & l & Hl & <-)].
        -- split; [done|]. exists line. split; [|done].
           apply elem_of_app. right. by left.
        -- split; [done|]. exists l. split; [|done]. apply elem_of_app. by left.
      * intros (Hne & l & [Hl|Hl%list_elem_of_singleton]%elem_of_app & <-).
        -- right. split; [done|]. by exists l.
        -- left. by subst.
Qed.

Lemma keyed_fold lines :
  (forall key,
     is_Some (level_counts (fold_left process_line lines empty_stats) !! key)
     <-> exists l, l ∈ lines /\ extract_level l = key)
  /\ (forall key,
        is_Some (message_counts (fold_left process_line lines empty_stats) !! key)
        <-> key <> EmptyString /\ exists l, l ∈ lines /\ extract_message l = key).
Proof.
  induction lines as [|line lines IH] using rev_ind.
  - split; intros key; cbn; rewrite lookup_empty; split.
    + by intros [? ?].
    + by intros (l & ?%elem_of_nil & _).
    + by intros [? ?].
    + by intros (_ & l & ?%elem_of_nil & _).
  - rewrite fold_left_app. cbn [fold_left]. by apply keyed_step.
Qed.

(** X10. Whatever the size of the file, the keys of [level_counts] are
    exactly the levels of the lines read, and the keys of [message_counts]
    are exactly the non-empty messages of the lines read; every message key
    is trimmed. *)
Theorem stats_keys (infile : string) :
  (forall key,
     is_Some (level_counts (process_loop infile empty_stats) !! key)
     <-> exists line, line ∈ read_lines infile /\ extract_level line = key)
  /\ (forall key,
        is_Some (message_counts (process_loop infile empty_stats) !! key)
        <-> key <> EmptyString
            /\ exists line, line ∈ read_lines infile /\ extract_message line = key)
  /\ (forall key,
        is_Some (message_counts (process_loop infile empty_stats) !! key) ->
        trim key = key).
Proof.
  rewrite process_loop_fold.
  destruct (keyed_fold (read_lines infile)) as [Hlc Hmc].
  split; [done|]. split; [done|].
  intros key (_ & line & _ & <-)%Hmc.
  assert (exists s, extract_message line = trim s) as [s ->].
  { unfold extract_message. destruct (StdString.find line " - "); eauto. }
  apply trim_stripped. eapply stripped_of_self. apply trim_is_stripped.
Qed.

Lemma size_incr key (m : gmap string Z) : (size (incr key m) <= S (size m))%nat.
Proof.
  unfold incr. rewrite map_size_insert. destruct (m !! key); simpl; lia.
Qed.

Lemma size_messages_fold lines :
  forall stats,
    (size (message_counts (fold_left process_line lines stats))
     <= size (message_counts stats) + length lines)%nat.
Proof.
  induction lines as [|line lines IH]; intros stats; simpl; [lia|].
  etransitivity; [apply IH|]. cbn [process_line message_counts].
  destruct (negb _); [|lia].
  pose proof (size_incr (extract_message line) (message_counts stats)). lia.
Qed.

(** X11. There are never more distinct messages than lines read, and never
    more than seven levels: the numbered list has at most as many entries as
    the file has lines, and the "Log levels" section at most seven. *)
Theorem distinct_counts_bounded (infile : string) :
  (size (message_counts (process_loop infile empty_stats))
   <= length (read_lines infile))%nat
  /\ (size (level_counts (process_loop infile empty_stats)) <= 7)%nat.
Proof.
  split.
  - rewrite process_loop_fold.
    pose proof (size_messages_fold (read_lines infile) empty_stats) as H.
    cbn [empty_stats message_counts] in H. by rewrite map_size_empty in H.
  - rewrite <- size_dom.
    transitivity (size (list_to_set common : gset string)).
    + apply subseteq_size. intros key Hkey%elem_of_dom.
      apply elem_of_list_to_set. by apply (level_keys_process_loop infile).
    + by vm_compute.
Qed.

(** ** extract_level and the case of the letters *)

Lemma isspace_toupper c : CType.isspace (CType.toupper c) = CType.isspace c.
Proof. by destruct c as [[] [] [] [] [] [] [] []]. Qed.

Lemma toupper_idem c : CType.toupper (CType.toupper c) = CType.toupper c.
Proof. by destruct c as [[] [] [] [] [] [] [] []]. Qed.

Lemma to_upper_idem s : to_upper (to_upper s) = to_upper s.
Proof. induction s as [|c s IH]; simpl; [done|]. by rewrite toupper_idem, IH. Qed.

Lemma skipws_to_upper s :
  IStream.skipws (to_upper s) = to_upper (IStream.skipws s).
Proof.
  induction s as [|c s IH]; simpl; [done|]. rewrite isspace_toupper.
  by destruct (CType.isspace c).
Qed.

Lemma read_word_to_upper s :
  IStream.read_word (to_upper s)
  = (to_upper (IStream.read_word s).1, to_upper (IStream.read_word s).2).
Proof.
  induction s as [|c s IH]; simpl; [done|]. rewrite isspace_toupper.
  destruct (CType.isspace c); [done|]. rewrite IH.
  by destruct (IStream.read_word s).
Qed.

Lemma extract_to_upper iss :
  IStream.extract (to_upper iss)
  = match IStream.extract iss with
    | Some (token, rest) => Some (to_upper token, to_upper rest)
    | None => None
    end.
Proof.
  unfold IStream.extract. rewrite skipws_to_upper.
  destruct (IStream.skipws iss) as [|c s]; [done|].
  pose proof (read_word_to_upper (String c s)) as Hw.
  change (to_upper (String c s)) with (String (CType.toupper c) (to_upper s)) in *.
  cbv beta iota. rewrite Hw. by destruct (IStream.read_word (String c s)).
Qed.

Lemma extract_level_to_upper line :
  extract_level (to_upper line) = extract_level line.
Proof.
  unfold extract_level.
  remember (String.length line) as n eqn:Hn. revert line Hn.
  induction n as [n IH] using lt_wf_ind. intros iss ->.
  rewrite (extract_level_loop_eq iss), (extract_level_loop_eq (to_upper iss)).
  rewrite extract_to_upper.
  destruct (IStream.extract iss) as [[token rest]|] eqn:Hext; [|done].
  rewrite to_upper_idem.
  destruct (match_levels (to_upper token) levels); [done|].
  eapply IH; [|done]. by eapply extract_shrinks.
Qed.

(** X12. The level of a line does not depend on the case of its letters:
    two lines that are equal once their letters are moved to upper case have
    the same level. *)
Theorem extract_level_case_insensitive (line1 line2 : string) :
  to_upper line1 = to_upper line2 ->
  extract_level line1 = extract_level line2.
Proof.
  intros Heq.
  by rewrite <- (extract_level_to_upper line1), Heq, extract_level_to_upper.
Qed.


(** ** The command line *)

(** X14. The program prints the usage text and exits with code 1 exactly
    when the argument list is neither [exe file] nor [exe file --top v] with
    a [v] that [std::stoi] converts: no argument, a third argument alone,
    more than three arguments and a flag other than [--top] are all
    rejected, whatever the file system holds. *)
Theorem usage_exactly_when (fs : string -> option string) (argv : list string) :
  exit_code (main fs argv) = 1
  <-> ~ (length argv = 2%nat
         \/ (length argv = 4%nat
             /\ argv !! 2%nat = Some "--top"
             /\ exists v, argv !! 3%nat = Some v /\ is_Some (StdLib.stoi v))).
Proof.
  unfold main, process_file.
  destruct (parse_args argv) as [[filepath top_n]|] eqn:Hparse.
  - split.
    + by destruct (fs filepath).
    + intros Hshape. destruct Hshape.
      apply parse_args_Some in Hparse
        as [(exe & -> & _)|(exe & v & n & -> & Hv & _)]; [by left|].
      right. repeat split. exists v. split; [done|by exists n].
  - split; [|done]. intros _ [Hlen|(Hlen & Hflag & v & Hv & n & Hn)].
    + by destruct argv as [|exe [|filepath [|? ?]]].
    + destruct argv as [|exe [|filepath [|flag [|v' [|? ?]]]]]; try done.
      simpl in Hflag, Hv. injection Hflag as ->. injection Hv as ->.
      assert (parse_args [exe; filepath; "--top"; v]
              = Some (filepath, Z.max 1 n)) as H
        by (apply parse_args_Some; right; by exists exe, v, n).
      congruence.
Qed.

(** ** Decimal numerals on the command line *)

Lemma pretty_N_char_digit d :
  (d < 10)%N ->
  CType.isdigit (pretty_N_char d) = true
  /\ StdLib.digit_value (pretty_N_char d) = Z.of_N d.
Proof.
  intros Hd.
  assert (d = 0 \/ d = 1 \/ d = 2 \/ d = 3 \/ d = 4 \/ d = 5 \/ d = 6
          \/ d = 7 \/ d = 8 \/ d = 9)%N as H by lia.
  destruct_or! H; subst; done.
Qed.

(** Reading the digits that [pretty] writes for [x] appends them to the
    value read so far. *)
Lemma digits_value_pretty_N_go x :
  forall acc s,
    exists k : nat,
      StdLib.digits_value acc (pretty_N_go x s)
      = StdLib.digits_value (acc * 10 ^ Z.of_nat k + Z.of_N x) s.
Proof.
  induction (N.lt_wf_0 x) as [x _ IH]. intros acc s.
  destruct (decide (x = 0)%N) as [->|Hx].
  - exists 0%nat. rewrite pretty_N_go_0. f_equal.
    change (10 ^ Z.of_nat 0) with 1. change (Z.of_N 0) with 0.
    by rewrite Z.mul_1_r, Z.add_0_r.
  - rewrite pretty_N_go_step by lia.
    destruct (IH (x `div` 10)%N ltac:(apply N.div_lt; lia) acc
                (String (pretty_N_char (x `mod` 10)) s)) as [k Hk].
    exists (S k). rewrite Hk. cbn [StdLib.digits_value].
    destruct (pretty_N_char_digit (x `mod` 10)) as [Hd Hv];
      [apply N.mod_lt; lia|].
    rewrite Hd, Hv. f_equal.
    rewrite Nat2Z.inj_succ, Z.pow_succ_r by lia.
    rewrite N2Z.inj_div, N2Z.inj_mod.
    pose proof (Z.div_mod (Z.of_N x) 10 ltac:(lia)). lia.
Qed.

Lemma pretty_N_go_head x s :
  (0 < x)%N ->
  exists c s', pretty_N_go x s = String c s' /\ CType.isdigit c = true.
Proof.
  revert s. induction (N.lt_wf_0 x) as [x _ IH]. intros s Hx.
  rewrite pretty_N_go_step by done.
  destruct (decide (x `div` 10 = 0)%N) as [->|Hdiv].
  - rewrite pretty_N_go_0. eexists _, _. split; [done|].
    apply pretty_N_char_digit, N.mod_lt. lia.
  - apply IH; [apply N.div_lt; lia|]. by apply N.neq_0_lt_0.
Qed.

Lemma digit_head c s :
  CType.isdigit c = true ->
  IStream.skipws (String c s) = String c s
  /\ StdLib.read_sign (String c s) = (false, String c s).
Proof. by destruct c as [[] [] [] [] [] [] [] []]. Qed.

Lemma stoi_digits s v :
  (exists c s', s = String c s' /\ CType.isdigit c = true) ->
  StdLib.digits_value 0 s = v ->
  (INT_MIN <= v <= INT_MAX -> StdLib.stoi s = Some v)
  /\ (INT_MIN <= - v <= INT_MAX -> StdLib.stoi ("-" +:+ s) = Some (- v)).
Proof.
  intros (c & s' & -> & Hc) Hv.
  destruct (digit_head c s' Hc) as [Hskip Hsign].
  split; intros Hrange; unfold StdLib.stoi.
  - rewrite Hskip, Hsign, Hc, Hv.
    destruct (Z.leb_spec INT_MIN v); [|lia].
    destruct (Z.leb_spec v INT_MAX); [done|lia].
  - rewrite str_app_cons, str_app_nil_l.
    cbn [IStream.skipws CType.isspace StdLib.read_sign]. rewrite Hc, Hv.
    destruct (Z.leb_spec INT_MIN (- v)); [|lia].
    destruct (Z.leb_spec (- v) INT_MAX); [done|lia].
Qed.

Lemma stoi_pretty n :
  INT_MIN <= n <= INT_MAX -> StdLib.stoi (pretty n) = Some n.
Proof.
  intros Hn. destruct n as [|p|p]; [done|..];
    unfold pretty, pretty_Z, pretty, pretty_positive, pretty, pretty_N;
    rewrite decide_False by done;
    destruct (digits_value_pretty_N_go (N.pos p) 0 "") as [k Hk];
    cbn [StdLib.digits_value] in Hk;
    destruct (stoi_digits (pretty_N_go (N.pos p) "") (Z.pos p)) as [Hpos Hneg];
    try (by apply pretty_N_go_head); try (rewrite Hk; simpl; lia).
  - by apply Hpos.
  - by apply Hneg.
Qed.

(** X15. Decimal numerals round-trip through the command line: for every
    [n] in the range of [int], [--top] followed by the decimal numeral of
    [n] is accepted and sets [top_n] to [n], or to 1 when [n < 1]. *)
Theorem top_decimal_numeral (exe filepath : string) (n : Z) :
  INT_MIN <= n <= INT_MAX ->
  StdLib.stoi (pretty n) = Some n
  /\ parse_args [exe; filepath; "--top"; pretty n] = Some (filepath, Z.max 1 n).
Proof.
  intros Hn. split; [by apply stoi_pretty|].
  apply parse_args_Some. right. exists exe, (pretty n), n.
  by rewrite stoi_pretty.
Qed.

(** ** Blank lines, and files put end to end *)





Lemma lines_with_message_le lines :
  lines_with_message lines <= Z.of_nat (length lines).
Proof.
  unfold lines_with_message.
  pose proof (length_filter (fun line => extract_message line <> "") lines). lia.
Qed.

Lemma lines_with_or_without_message lines :
  lines_with_message lines + occurrences extract_message EmptyString lines
  = Z.of_nat (length lines).
Proof.
  unfold lines_with_message, occurrences.
  induction lines as [|line lines IH]; [done|].
  rewrite !filter_cons.
  destruct (decide (extract_message line = EmptyString));
    destruct (decide (extract_message line <> EmptyString));
    try done; simpl length; lia.
Qed.

(** X17. The messages counted never outnumber the lines: the values of
    [message_counts] add up to at most [total_lines], the difference being
    the number of lines whose message is empty.  The number of lines is
    assumed to fit a [long long]. *)
Theorem message_sum_le_total (infile : string) :
  Z.of_nat (length (read_lines infile)) <= LLONG_MAX ->
  sum_counts (message_counts (process_loop infile empty_stats))
  <= total_lines (process_loop infile empty_stats)
  /\ total_lines (process_loop infile empty_stats)
     - sum_counts (message_counts (process_loop infile empty_stats))
     = occurrences extract_message EmptyString (read_lines infile).
Proof.
  intros Hlen.
  destruct (counted_process_loop infile Hlen) as [Ht _ _ _ Hms].
  rewrite Ht, Hms. split; [apply lines_with_message_le|].
  pose proof (lines_with_or_without_message (read_lines infile)). lia.
Qed.

Lemma read_lines_app a b :
  read_lines ((a +:+ nl) +:+ b) = read_lines (a +:+ nl) ++ read_lines b.
Proof.
  remember (String.length a) as n eqn:Hn. revert a Hn.
  induction n as [n IH] using lt_wf_ind. intros a ->.
  destruct (split_newline a) as [Ha|(x & y & -> & Hx)].
  - rewrite str_app_assoc, read_lines_cons by done.
    rewrite <- (str_app_nil_r nl).
    by rewrite read_lines_cons, read_lines_nil.
  - rewrite !str_app_assoc, !(read_lines_cons x) by done.
    rewrite <- (str_app_assoc y nl b), (IH (String.length y)); [done| |done].
    rewrite !str_length_app. simpl. lia.
Qed.

(** X18. Files put end to end: when a file that ends with a newline is
    followed by a second file, the lines read are those of the first file
    followed by those of the second, and the statistics are those obtained
    by processing the second file on top of the statistics of the first. *)
Theorem process_concatenation (a b : string) (stats : Stats) :
  read_lines ((a +:+ nl) +:+ b) = read_lines (a +:+ nl) ++ read_lines b
  /\ process_loop ((a +:+ nl) +:+ b) stats
     = process_loop b (process_loop (a +:+ nl) stats).
Proof.
  split; [apply read_lines_app|].
  by rewrite !process_loop_fold, read_lines_app, fold_left_app.
Qed.

(** * The further properties at work on concrete inputs *)

Lemma trim_empty_iff_witness : all_space "   " = true /\ trim "   " = "".
Proof.
  split; [reflexivity|]. apply (proj2 (trim_empty_iff "   ")). reflexivity.
Defined.

Lemma read_lines_reassemble_witness :
  "a" +:+ nl +:+ "b" <> EmptyString
  /\ ends_with_newline ("a" +:+ nl +:+ "b") = false
  /\ read_lines (("a" +:+ nl +:+ "b") +:+ nl) = read_lines ("a" +:+ nl +:+ "b")
  /\ has_newline "a" = false.
Proof.
  assert ("a" +:+ nl +:+ "b" <> EmptyString) as Hne by discriminate.
  split; [exact Hne|]. split; [reflexivity|]. split.
  - apply (proj1 (proj2 read_lines_reassemble) ("a" +:+ nl +:+ "b") empty_stats
             Hne eq_refl).
  - apply (proj2 (proj2 read_lines_reassemble) ("a" +:+ nl +:+ "b") "a").
    vm_compute. left.
Defined.

Lemma read_lines_join_lines_witness :
  Forall (fun line => has_newline line = false) ["INFO a - b"; ""; "c"]
  /\ read_lines (join_lines ["INFO a - b"; ""; "c"]) = ["INFO a - b"; ""; "c"].
Proof.
  assert (Forall (fun line => has_newline line = false) ["INFO a - b"; ""; "c"])
    as Hlines by (repeat constructor).
  split; [exact Hlines|]. apply (read_lines_join_lines _ Hlines).
Defined.

Lemma level_counts_per_level_witness :
  Z.of_nat (length (read_lines sample_log)) <= LLONG_MAX
  /\ level_counts (process_loop sample_log empty_stats) !! "INFO"
     = counter_entry (occurrences extract_level "INFO" (read_lines sample_log)).
Proof.
  assert (Z.of_nat (length (read_lines sample_log)) <= LLONG_MAX) as Hlen
    by (vm_compute; discriminate).
  split; [exact Hlen|]. apply (level_counts_per_level sample_log "INFO" Hlen).
Defined.


Lemma stats_order_independent_witness :
  read_lines ("a - x" +:+ nl +:+ "WARN b") ≡ₚ read_lines ("WARN b" +:+ nl +:+ "a - x")
  /\ process_loop ("a - x" +:+ nl +:+ "WARN b") empty_stats
     = process_loop ("WARN b" +:+ nl +:+ "a - x") empty_stats.
Proof.
  assert (read_lines ("a - x" +:+ nl +:+ "WARN b")
          ≡ₚ read_lines ("WARN b" +:+ nl +:+ "a - x")) as Hperm
    by (vm_compute; apply perm_swap).
  assert (Z.of_nat (length (read_lines ("a - x" +:+ nl +:+ "WARN b")))
          <= LLONG_MAX) as Hlen by (vm_compute; discriminate).
  split; [exact Hperm|].
  apply (stats_order_independent _ _ 5 Hperm Hlen).
Defined.

Lemma stats_keys_witness :
  is_Some (message_counts (process_loop sample_log empty_stats)
           !! "User login ok")
  /\ trim "User login ok" = "User login ok".
Proof.
  assert (is_Some (message_counts (process_loop sample_log empty_stats)
                   !! "User login ok")) as Hkey by (exists 2; reflexivity).
  split; [exact Hkey|].
  apply (proj2 (proj2 (stats_keys sample_log)) "User login ok" Hkey).
Defined.

Lemma extract_level_case_insensitive_witness :
  to_upper "10:03 warning disk - low" = to_upper "10:03 WaRnInG DISK - Low"
  /\ extract_level "10:03 warning disk - low"
     = extract_level "10:03 WaRnInG DISK - Low".
Proof.
  split; [reflexivity|].
  apply (extract_level_case_insensitive
           "10:03 warning disk - low" "10:03 WaRnInG DISK - Low").
  reflexivity.
Defined.


Lemma usage_exactly_when_witness :
  exit_code (main sample_fs ["log_parser"; "sample.log"; "--bottom"; "3"]) = 1
  /\ ~ (length ["log_parser"; "sample.log"; "--bottom"; "3"] = 2%nat
        \/ (length ["log_parser"; "sample.log"; "--bottom"; "3"] = 4%nat
            /\ ["log_parser"; "sample.log"; "--bottom"; "3"] !! 2%nat
               = Some "--top"
            /\ exists v,
                 ["log_parser"; "sample.log"; "--bottom"; "3"] !! 3%nat = Some v
                 /\ is_Some (StdLib.stoi v))).
Proof.
  split; [reflexivity|].
  apply (proj1 (usage_exactly_when sample_fs
                  ["log_parser"; "sample.log"; "--bottom"; "3"])).
  reflexivity.
Defined.

Lemma top_decimal_numeral_witness :
  INT_MIN <= 10 <= INT_MAX
  /\ StdLib.stoi (pretty 10) = Some 10
  /\ parse_args ["log_parser"; "sample.log"; "--top"; pretty 10]
     = Some ("sample.log", Z.max 1 10).
Proof.
  assert (INT_MIN <= 10 <= INT_MAX) as Hn by (vm_compute; split; discriminate).
  split; [exact Hn|].
  apply (top_decimal_numeral "log_parser" "sample.log" 10 Hn).
Defined.


Lemma message_sum_le_total_witness :
  Z.of_nat (length (read_lines sample_log)) <= LLONG_MAX
  /\ sum_counts (message_counts (process_loop sample_log empty_stats))
     <= total_lines (process_loop sample_log empty_stats).
Proof.
  assert (Z.of_nat (length (read_lines sample_log)) <= LLONG_MAX) as Hlen
    by (vm_compute; discriminate).
  split; [exact Hlen|]. apply (proj1 (message_sum_le_total sample_log Hlen)).
Defined.

(** * The value that follows --top *)

Lemma is_decimal_digit_isdigit c : is_decimal_digit c = CType.isdigit c.
Proof. by destruct c as [[] [] [] [] [] [] [] []]. Qed.

Lemma isspace_whitespace_chars c :
  CType.isspace c = bool_decide (c ∈ whitespace_chars).
Proof. by destruct c as [[] [] [] [] [] [] [] []]. Qed.

Lemma skip_whitespace_skipws s : skip_whitespace s = IStream.skipws s.
Proof.
  induction s as [|c s IH]; simpl; [done|].
  rewrite <- isspace_whitespace_chars, IH. done.
Qed.

Lemma no_digit_no_conversion s neg :
  starts_with_digit s = false ->
  match s with
  | String c _ =>
      if CType.isdigit c then
        let v := StdLib.digits_value 0 s in
        let v := if neg : bool then - v else v in
        if (INT_MIN <=? v) && (v <=? INT_MAX) then Some v else None
      else None
  | EmptyString => None
  end = None.
Proof.
  destruct s as [|c s]; [done|]. cbn [starts_with_digit].
  rewrite is_decimal_digit_isdigit. by intros ->.
Qed.

(** [std::stoi] throws on a string that does not start with an integer. *)
Lemma stoi_no_leading_integer v :
  has_leading_integer v = false -> StdLib.stoi v = None.
Proof.
  assert (has_leading_integer v
          = starts_with_digit (StdLib.read_sign (IStream.skipws v)).2) as ->.
  { unfold has_leading_integer. rewrite skip_whitespace_skipws.
    destruct (IStream.skipws v) as [|c r]; [done|].
    by destruct c as [[] [] [] [] [] [] [] []]. }
  unfold StdLib.stoi. destruct (StdLib.read_sign (IStream.skipws v)) as [neg s].
  apply no_digit_no_conversion.
Qed.

Lemma digits_value_stop acc rest :
  starts_with_digit rest = false -> StdLib.digits_value acc rest = acc.
Proof.
  destruct rest as [|c rest]; [done|]. cbn [starts_with_digit].
  rewrite is_decimal_digit_isdigit. simpl. by intros ->.
Qed.

Lemma pretty_N_go_app x :
  forall s t, pretty_N_go x s +:+ t = pretty_N_go x (s +:+ t).
Proof.
  induction (N.lt_wf_0 x) as [x _ IH]. intros s t.
  destruct (decide (x = 0)%N) as [->|Hx]; [by rewrite !pretty_N_go_0|].
  assert (0 < x)%N as Hpos by by apply N.neq_0_lt_0.
  rewrite (pretty_N_go_step x s), (pretty_N_go_step x (s +:+ t)) by done.
  by rewrite IH by (apply N.div_lt; lia).
Qed.

(** What [std::stoi] makes of a string that starts with digits of value
    [v], and of the same string behind a minus sign. *)
Lemma stoi_leading_digits s v :
  (exists c s', s = String c s' /\ CType.isdigit c = true) ->
  StdLib.digits_value 0 s = v ->
  StdLib.stoi s
  = (if (INT_MIN <=? v) && (v <=? INT_MAX) then Some v else None)
  /\ StdLib.stoi ("-" +:+ s)
     = (if (INT_MIN <=? - v) && (- v <=? INT_MAX) then Some (- v) else None).
Proof.
  intros (c & s' & -> & Hc) Hv.
  destruct (digit_head c s' Hc) as [Hskip Hsign].
  split; unfold StdLib.stoi.
  - by rewrite Hskip, Hsign, Hc, Hv.
  - rewrite str_app_cons, str_app_nil_l.
    cbn [IStream.skipws CType.isspace StdLib.read_sign]. by rewrite Hc, Hv.
Qed.

(** [std::stoi] on the decimal numeral of [n] followed by characters that do
    not go on with a digit: [n] when it fits an [int], an exception
    otherwise. *)
Lemma stoi_pretty_rest n rest :
  starts_with_digit rest = false ->
  StdLib.stoi (pretty n +:+ rest)
  = (if (INT_MIN <=? n) && (n <=? INT_MAX) then Some n else None).
Proof.
  intros Hrest. destruct n as [|p|p].
  - change (pretty 0 +:+ rest) with (String "0" rest).
    apply (stoi_leading_digits (String "0" rest) 0); [by eexists _, _|].
    cbn. by apply digits_value_stop.
  - unfold pretty, pretty_Z, pretty, pretty_positive, pretty, pretty_N.
    rewrite decide_False by done. rewrite pretty_N_go_app, str_app_nil_l.
    apply (stoi_leading_digits (pretty_N_go (N.pos p) rest) (Z.pos p)).
    + by apply pretty_N_go_head.
    + destruct (digits_value_pretty_N_go (N.pos p) 0 rest) as [k ->].
      by rewrite digits_value_stop.
  - unfold pretty, pretty_Z, pretty, pretty_positive, pretty, pretty_N.
    rewrite decide_False by done.
    rewrite str_app_assoc, pretty_N_go_app, str_app_nil_l.
    apply (stoi_leading_digits (pretty_N_go (N.pos p) rest) (Z.pos p)).
    + by apply pretty_N_go_head.
    + destruct (digits_value_pretty_N_go (N.pos p) 0 rest) as [k ->].
      by rewrite digits_value_stop.
Qed.

(** C6, as the code has it.  An invocation whose [--top] value [std::stoi]
    does not convert fails argument parsing: the usage text is written to
    standard output and the exit code is 1.  [std::stoi] does not convert a
    value that does not start with an integer (after leading whitespace and
    an optional sign there is no decimal digit), nor one whose leading
    integer is outside the range of [int].  A value that starts with an
    integer of that range followed by other characters, such as 12abc, is
    converted and accepted as that integer. *)
Theorem unconverted_top_exits_1 (fs : string -> option string) :
  (forall argv v,
     argv !! 2%nat = Some "--top" ->
     argv !! 3%nat = Some v ->
     StdLib.stoi v = None ->
     parse_args argv = None
     /\ main fs argv
        = mkOutcome 1 (usage_text (default "log_parser" (argv !! 0%nat))) "")
  /\ (forall v, has_leading_integer v = false -> StdLib.stoi v = None)
  /\ (forall n rest,
        ~ (INT_MIN <= n <= INT_MAX) ->
        starts_with_digit rest = false ->
        StdLib.stoi (pretty n +:+ rest) = None)
  /\ (forall exe filepath n rest,
        INT_MIN <= n <= INT_MAX ->
        starts_with_digit rest = false ->
        parse_args [exe; filepath; "--top"; pretty n +:+ rest]
        = Some (filepath, Z.max 1 n)).
Proof.
  split; [|split; [|split]].
  - intros argv v Hflag Hv Hstoi.
    assert (parse_args argv = None) as Hparse.
    { destruct (parse_args argv) as [[filepath top_n]|] eqn:Hp; [|done].
      apply parse_args_Some in Hp
        as [(exe & -> & _)|(exe & v' & n & -> & Hv' & _)]; [done|].
      simpl in Hv. congruence. }
    split; [done|]. by rewrite main_usage, print_usage_text.
  - apply stoi_no_leading_integer.
  - intros n rest Hn Hrest. rewrite stoi_pretty_rest by done.
    destruct (Z.leb_spec INT_MIN n); [|done].
    destruct (Z.leb_spec n INT_MAX); [lia|done].
  - intros exe filepath n rest Hn Hrest. apply parse_args_Some. right.
    exists exe, (pretty n +:+ rest), n. rewrite stoi_pretty_rest by done.
    destruct (Z.leb_spec INT_MIN n); [|lia].
    destruct (Z.leb_spec n INT_MAX); [done|lia].
Qed.

(** The claim as the specification words it fails: 12abc is no integer, yet
    [--top 12abc] is accepted as [--top 12] and the run ends with code 0. *)
Lemma malformed_top_accepted :
  integer_numeral "12abc" = false
  /\ parse_args ["log_parser"; "sample.log"; "--top"; "12abc"]
     = Some ("sample.log", 12)
  /\ exit_code (main sample_fs ["log_parser"; "sample.log"; "--top"; "12abc"]) = 0
  /\ ~ (forall fs argv v,
          argv !! 2%nat = Some "--top" ->
          argv !! 3%nat = Some v ->
          integer_numeral v = false ->
          exit_code (main fs argv) = 1).
Proof.
  split; [done|]. split; [done|]. split; [by vm_compute|].
  intros H.
  specialize (H sample_fs ["log_parser"; "sample.log"; "--top"; "12abc"] "12abc"
                eq_refl eq_refl eq_refl).
  vm_compute in H. discriminate.
Qed.

Lemma unconverted_top_exits_1_witness :
  (StdLib.stoi "ten" = None
   /\ has_leading_integer "ten" = false
   /\ main sample_fs ["log_parser"; "sample.log"; "--top"; "ten"]
      = mkOutcome 1 (usage_text "log_parser") "")
  /\ (~ (INT_MIN <= 99999999999 <= INT_MAX)
      /\ StdLib.stoi (pretty 99999999999 +:+ "") = None)
  /\ (INT_MIN <= 12 <= INT_MAX
      /\ starts_with_digit "abc" = false
      /\ parse_args ["log_parser"; "sample.log"; "--top"; pretty 12 +:+ "abc"]
         = Some ("sample.log", Z.max 1 12)).
Proof.
  assert (StdLib.stoi "ten" = None) as Hten.
  { apply (proj1 (proj2 (unconverted_top_exits_1 sample_fs)) "ten").
    reflexivity. }
  assert (~ (INT_MIN <= 99999999999 <= INT_MAX)) as Hbig
    by (vm_compute; intros [_ H]; apply H; reflexivity).
  assert (INT_MIN <= 12 <= INT_MAX) as Hsmall
    by (vm_compute; split; discriminate).
  split; [|split].
  - split; [exact Hten|]. split; [reflexivity|].
    apply (proj1 (unconverted_top_exits_1 sample_fs)
             ["log_parser"; "sample.log"; "--top"; "ten"] "ten" eq_refl eq_refl
             Hten).
  - split; [exact Hbig|].
    apply (proj1 (proj2 (proj2 (unconverted_top_exits_1 sample_fs)))
             99999999999 "" Hbig eq_refl).
  - split; [exact Hsmall|]. split; [reflexivity|].
    apply (proj2 (proj2 (proj2 (unconverted_top_exits_1 sample_fs)))
             "log_parser" "sample.log" 12 "abc" Hsmall eq_refl).
Defined.
